(** * MediGuide frontend: the report-status poll loop, the session/navigation
    state manager, and the handlers around them.

    The development embeds these pieces of the client:

    - [PollLoop]: the effect of [ScanningScreen] (src/components/screens/
      ScanningScreen.tsx) that polls [getReportStatus] (src/lib/api.ts) until the
      report is completed, failed, or 60 s have passed;
    - [Session]: the effects of [AppProvider] (contexts/AppContext) that restore
      the last screen and tab from [localStorage] and persist them;
    - [ScanningEffect]: the rest of that effect of [ScanningScreen], its branch
      for a missing report id and its cleanup;
    - [ApiClient]: the headers of [apiFetch] and the query of [listReports];
    - [History]: the request and the delete mode of the history screen;
    - [ScanScreen]: the file list and the upload of the scan screen;
    - [Profile]: the name split of [fetchUserProfile];
    - [AuthEvents]: the listener [AppProvider] gives [onAuthStateChange].

    JavaScript runs each handler to completion on one thread, so a handler is a
    function from state to state; an [await] splits a handler in two, the second
    half being run by the event that settles the promise. *)

From Stdlib Require Import ZArith NArith List String Ascii Bool Lia.
From Stdlib Require Import PrimFloat FloatOps SpecFloat Uint63.
From stdpp Require Import gmap strings.
Import ListNotations.
Local Open Scope Z_scope.

(** ** Screens (contexts/AppContext, type [Screen]) *)

Inductive Screen :=
| splash | onboarding | login | signup | profile_setup | home | history
| scan | scanning | scan_error | report_result | family | add_family
| nickname_popup | profile | report_explanation.

Definition screen_name (s : Screen) : string :=
  match s with
  | splash => "splash" | onboarding => "onboarding" | login => "login"
  | signup => "signup" | profile_setup => "profile-setup" | home => "home"
  | history => "history" | scan => "scan" | scanning => "scanning"
  | scan_error => "scan-error" | report_result => "report-result"
  | family => "family" | add_family => "add-family"
  | nickname_popup => "nickname-popup" | profile => "profile"
  | report_explanation => "report-explanation"
  end%string.

(** ** String.prototype.toLowerCase, on the ASCII letters.

    The three words the loop compares with hold ASCII letters only, and no
    character outside ASCII lower-cases to one of their letters. *)

Definition lower_ascii (c : ascii) : ascii :=
  let n := nat_of_ascii c in
  if ((65 <=? n) && (n <=? 90))%nat then ascii_of_nat (n + 32) else c.

Fixpoint toLowerCase (s : string) : string :=
  match s with
  | EmptyString => EmptyString
  | String c r => String (lower_ascii c) (toLowerCase r)
  end.

(** ** JavaScript numbers

    A JavaScript number is an IEEE 754 binary64 value, which is what a
    primitive [float] is; [/] and [*] round to nearest, ties to even, in both.
    Whole numbers below 2^53 in magnitude, such as the readings of
    [Date.now()] and their differences, are represented exactly, so the model
    keeps them in [Z] and moves to [float] only where the source divides. *)

Module JS.

(** The number with value [z], exact for |z| < 2^53. *)
Definition number_of_Z (z : Z) : float :=
  if z <? 0 then PrimFloat.opp (PrimFloat.of_uint63 (Uint63.of_Z (- z)))
  else PrimFloat.of_uint63 (Uint63.of_Z z).

(** [Math.floor] of a finite number ([0] stands in for NaN and the
    infinities, which [Math.floor] returns unchanged). *)
Definition Math_floor (x : float) : Z :=
  match Prim2SF x with
  | S754_finite s m e =>
      let z := if s then Z.neg m else Z.pos m in
      if 0 <=? e then z * 2 ^ e else z / 2 ^ (- e)
  | _ => 0
  end.

End JS.

(** ** The REST client (src/lib/api.ts) *)

Module Api.

(** The parsed body of [GET /reports/:id/status].  A field is [None] when the
    JSON value lacks it (or holds no string).  The loop reads [.status] of
    what [apiFetch] returns and calls [toLowerCase] on it, inside its [try]:
    for a value without a status string, and for [null], that throws a
    TypeError, so [null] is read as a body without fields. *)
Record ReportStatus := mkReportStatus {
  status : option string;
  error_message : option string
}.

(** What [catch (error)] sees: [error.status] is set by [apiFetch] only. *)
Record ApiError := mkApiError { error_status : option Z }.

(** What the transport gives [apiFetch].  The body of an HTTP answer is not
    JSON ([Response] with [None]), a JSON value other than [null]
    ([Response] with [Some]), or the JSON text [null] ([ResponseNull]). *)
Inductive FetchResult :=
| NoSession                                       (* no access token *)
| NetworkError                                    (* [fetch] rejects *)
| Response (code : Z) (json : option ReportStatus) (* [None]: body is not JSON *)
| ResponseNull (code : Z).                        (* the body is [null] *)

Inductive Settled :=
| Fulfilled (r : ReportStatus)
| Rejected (e : ApiError).

(** [response.ok] of the Fetch standard. *)
Definition response_ok (code : Z) : bool := (200 <=? code) && (code <=? 299).

(** For an answer that is not [ok], [apiFetch] parses the body, with
    [{ message: 'Request failed' }] in place of a body that is not JSON, and
    reads [errorBody.detail] to build the error it throws with
    [status = response.status].  On a [null] body that read throws a
    TypeError, which leaves [apiFetch] in place of that error and has no
    [status]. *)
Definition apiFetch (f : FetchResult) : Settled :=
  match f with
  | NoSession => Rejected (mkApiError None)
  | NetworkError => Rejected (mkApiError None)
  | Response code json =>
      if negb (response_ok code) then Rejected (mkApiError (Some code))
      else if code =? 204 then Fulfilled (mkReportStatus None None)
      else match json with
           | Some r => Fulfilled r
           | None => Rejected (mkApiError None)
           end
  | ResponseNull code =>
      if negb (response_ok code) then Rejected (mkApiError None)
      else Fulfilled (mkReportStatus None None)
  end.

Definition getReportStatus (f : FetchResult) : Settled := apiFetch f.

End Api.

(** ** The poll loop of [ScanningScreen] *)

Module PollLoop.
Import Api.

(** The two closures the effect hands to [setTimeout]: [pollStatus] itself
    (2000 ms) and the guarded navigation (500 ms). *)
Inductive Callback :=
| CbPollStatus
| CbNavigate (s : Screen).

Record Timer := mkTimer { tid : nat; due : Z; cb : Callback }.

Record Loop := mkLoop {
  now : Z;                     (* Date.now() *)
  isMounted : bool;            (* let isMounted *)
  startTimeRef : Z;            (* startTimeRef.current *)
  progress : Z;                (* useState(0) *)
  pollingRef : option nat;     (* pollingRef.current *)
  timers : list Timer;         (* pending timeouts *)
  nextTimer : nat;             (* the next timeout id *)
  inflight : option Z;         (* pollStatus suspended at the await, with its [elapsed] *)
  queries : nat;               (* calls of getReportStatus so far *)
  toasts : list string;        (* toast.error calls, oldest first *)
  screens : list Screen        (* setCurrentScreen calls, oldest first *)
}.

Definition advance (d : N) (st : Loop) : Loop :=
  mkLoop (now st + Z.of_N d) (isMounted st) (startTimeRef st) (progress st)
         (pollingRef st) (timers st) (nextTimer st) (inflight st) (queries st)
         (toasts st) (screens st).

Definition set_isMounted (b : bool) (st : Loop) : Loop :=
  mkLoop (now st) b (startTimeRef st) (progress st)
         (pollingRef st) (timers st) (nextTimer st) (inflight st) (queries st)
         (toasts st) (screens st).

Definition setProgress (p : Z) (st : Loop) : Loop :=
  mkLoop (now st) (isMounted st) (startTimeRef st) p
         (pollingRef st) (timers st) (nextTimer st) (inflight st) (queries st)
         (toasts st) (screens st).

Definition set_pollingRef (r : option nat) (st : Loop) : Loop :=
  mkLoop (now st) (isMounted st) (startTimeRef st) (progress st)
         r (timers st) (nextTimer st) (inflight st) (queries st)
         (toasts st) (screens st).

Definition set_inflight (i : option Z) (st : Loop) : Loop :=
  mkLoop (now st) (isMounted st) (startTimeRef st) (progress st)
         (pollingRef st) (timers st) (nextTimer st) i (queries st)
         (toasts st) (screens st).

Definition toast_error (msg : string) (st : Loop) : Loop :=
  mkLoop (now st) (isMounted st) (startTimeRef st) (progress st)
         (pollingRef st) (timers st) (nextTimer st) (inflight st) (queries st)
         (toasts st ++ [msg]) (screens st).

Definition setCurrentScreen (s : Screen) (st : Loop) : Loop :=
  mkLoop (now st) (isMounted st) (startTimeRef st) (progress st)
         (pollingRef st) (timers st) (nextTimer st) (inflight st) (queries st)
         (toasts st) (screens st ++ [s]).

(** [setTimeout(cb, ms)] returns the new id. *)
Definition setTimeout (c : Callback) (ms : Z) (st : Loop) : nat * Loop :=
  (nextTimer st,
   mkLoop (now st) (isMounted st) (startTimeRef st) (progress st)
          (pollingRef st) (timers st ++ [mkTimer (nextTimer st) (now st + ms) c])
          (S (nextTimer st)) (inflight st) (queries st) (toasts st) (screens st)).

Definition clearTimeout (id : nat) (st : Loop) : Loop :=
  mkLoop (now st) (isMounted st) (startTimeRef st) (progress st)
         (pollingRef st) (List.filter (fun t => negb (Nat.eqb (tid t) id)) (timers st))
         (nextTimer st) (inflight st) (queries st) (toasts st) (screens st).

(** [getReportStatus(currentReportId)] is issued; the handler yields. *)
Definition issue_query (elapsed : Z) (st : Loop) : Loop :=
  mkLoop (now st) (isMounted st) (startTimeRef st) (progress st)
         (pollingRef st) (timers st) (nextTimer st) (Some elapsed)
         (S (queries st)) (toasts st) (screens st).

Definition msg_timeout : string := "Analysis timed out. Please try again.".
Definition msg_failed : string := "Report processing failed. Please try again.".
Definition msg_fatal : string := "Analysis failed: Report not found or invalid.".

(** [pollingRef.current = setTimeout(pollStatus, 2000)] *)
Definition schedule_poll (st : Loop) : Loop :=
  let '(id, st') := setTimeout CbPollStatus 2000 st in
  set_pollingRef (Some id) st'.

(** [Math.min(Math.floor((elapsed / 20000) * 90), 90)] *)
Definition estimatedProgress (elapsed : Z) : Z :=
  Z.min (JS.Math_floor
           (PrimFloat.mul
              (PrimFloat.div (JS.number_of_Z elapsed) (JS.number_of_Z 20000))
              (JS.number_of_Z 90)))
        90.

(** [Math.max(estimatedProgress, 10)], the argument of [setProgress]. *)
Definition shownProgress (elapsed : Z) : Z :=
  Z.max (estimatedProgress elapsed) 10.

(** The same estimate in exact arithmetic: floor (elapsed / 20000 * 90),
    capped at 90 and raised to 10. *)
Definition exactProgress (elapsed : Z) : Z :=
  Z.max (Z.min ((elapsed * 90) / 20000) 90) 10.

#[global] Arguments estimatedProgress : simpl never.
#[global] Arguments shownProgress : simpl never.
#[global] Arguments exactProgress : simpl never.

(** [pollStatus], from its entry to the [await]. *)
Definition pollStatus (st : Loop) : Loop :=
  if negb (isMounted st) then st
  else
    let elapsed := now st - startTimeRef st in
    if 60000 <? elapsed then
      setCurrentScreen scan_error (toast_error msg_timeout st)
    else issue_query elapsed st.

(** The [catch (error: any)] block. *)
Definition is_fatal (e : ApiError) : bool :=
  match error_status e with
  | Some c => (c =? 404) || (c =? 400)
  | None => false
  end.

Definition pollStatus_catch (e : ApiError) (st : Loop) : Loop :=
  if is_fatal e then
    setCurrentScreen scan_error (toast_error msg_fatal st)
  else if isMounted st then schedule_poll st
  else st.

(** [reportStatus.error_message || '...'] *)
Definition failure_message (r : ReportStatus) : string :=
  match error_message r with
  | Some m => if String.eqb m "" then msg_failed else m
  | None => msg_failed
  end.

(** [pollStatus], from the [await] on.  Reading [.status] of a body without
    one throws a TypeError inside the [try], which the [catch] block sees as
    an error without [status]. *)
Definition pollStatus_resume (elapsed : Z) (r : Settled) (st : Loop) : Loop :=
  match r with
  | Rejected e => pollStatus_catch e st
  | Fulfilled reportStatus =>
      if negb (isMounted st) then st
      else match status reportStatus with
           | None => pollStatus_catch (mkApiError None) st
           | Some s =>
               let status := toLowerCase s in
               if String.eqb status "processing" then
                 schedule_poll (setProgress (shownProgress elapsed) st)
               else if String.eqb status "completed" then
                 snd (setTimeout (CbNavigate report_result) 500 (setProgress 100 st))
               else if String.eqb status "failed" then
                 snd (setTimeout (CbNavigate scan_error) 500
                        (toast_error (failure_message reportStatus) st))
               else schedule_poll st
           end
  end.

Definition run_callback (c : Callback) (st : Loop) : Loop :=
  match c with
  | CbPollStatus => pollStatus st
  | CbNavigate s => if isMounted st then setCurrentScreen s st else st
  end.

(** The cleanup the effect returns. *)
Definition cleanup (st : Loop) : Loop :=
  let st' := set_isMounted false st in
  match pollingRef st' with
  | Some id => if Nat.eqb id 0 then st' else clearTimeout id st'
  | None => st'
  end.

(** The effect body for a bound [currentReportId], run at time [t0] on a
    freshly mounted component: the progress is 0, no timeout is pending, and
    timeout ids are positive, as the browser's are. *)
Definition initial (t0 : Z) : Loop :=
  mkLoop t0 true t0 0 None [] 1 None 0 [] [].

Definition mount (t0 : Z) : Loop := pollStatus (initial t0).

(** What the event loop can do to a mounted effect.  An event that is not
    enabled (no query in flight, no such timeout, a timeout not yet due)
    changes nothing; a timeout that runs is no longer pending. *)
Inductive Event :=
| Tick (d : N)            (* [d] ms pass *)
| Settle (r : Settled)    (* the pending getReportStatus settles *)
| Fire (id : nat)         (* timeout [id] is due and runs *)
| Unmount.                (* React runs the cleanup *)

Definition find_timer (id : nat) (st : Loop) : option Timer :=
  List.find (fun t => Nat.eqb (tid t) id) (timers st).

Definition step (ev : Event) (st : Loop) : Loop :=
  match ev with
  | Tick d => advance d st
  | Settle r =>
      match inflight st with
      | Some elapsed => pollStatus_resume elapsed r (set_inflight None st)
      | None => st
      end
  | Fire id =>
      match find_timer id st with
      | Some t =>
          if due t <=? now st then run_callback (cb t) (clearTimeout id st)
          else st
      | None => st
      end
  | Unmount => cleanup st
  end.

Definition steps (evs : list Event) (st : Loop) : Loop :=
  fold_left (fun s e => step e s) evs st.

Inductive reachable : Loop -> Prop :=
| reach_mount t0 : reachable (mount t0)
| reach_step st ev : reachable st -> reachable (step ev st).

(** The screens the loop navigates to. *)
Definition terminal_screen (s : Screen) : Prop :=
  s = report_result \/ s = scan_error.

(** The shapes a running effect can be in: a query in flight, waiting for
    the next poll, waiting for the delayed navigation, or idle (finished or
    cancelled).  The arithmetic side conditions record that the k-th query
    is issued no earlier than 2000 * (k - 1) ms after the start and that the
    progress shown never exceeds the estimate for the present time. *)
Inductive Inv : Loop -> Prop :=
| Inv_inflight t m start p ref nt e q ts :
    (1 <= nt)%nat -> (1 <= q <= 31)%nat ->
    0 <= e -> e <= t - start -> e <= 60000 -> 2000 * (Z.of_nat q - 1) <= e ->
    p <= shownProgress e ->
    Inv (mkLoop t m start p ref [] nt (Some e) q ts [])
| Inv_waiting t start p id d nt q ts e :
    id <> 0%nat -> (id < nt)%nat -> (q <= 31)%nat ->
    2000 * Z.of_nat q <= d - start ->
    0 <= e -> e <= t - start -> e <= 60000 ->
    p <= shownProgress e ->
    Inv (mkLoop t true start p (Some id) [mkTimer id d CbPollStatus] nt None q ts [])
| Inv_leaving t m start p ref id d s nt q ts :
    (1 <= nt)%nat -> (q <= 31)%nat -> terminal_screen s ->
    Inv (mkLoop t m start p ref [mkTimer id d (CbNavigate s)] nt None q ts [])
| Inv_idle t m start p ref nt q ts scr :
    (1 <= nt)%nat -> (q <= 31)%nat -> (length scr <= 1)%nat ->
    (m = true -> length scr = 1%nat) -> Forall terminal_screen scr ->
    Inv (mkLoop t m start p ref [] nt None q ts scr).

(** No query in flight and no timeout pending: nothing of the effect can
    run any more. *)
Definition quiescent (st : Loop) : Prop :=
  inflight st = None /\ timers st = [].

(** *** A status source driving the loop

    The k-th call of [getReportStatus] is answered by [src k]: what the
    transport returns, after how many milliseconds, and how late (beyond
    its delay) the timeout set while handling the answer fires.  [next]
    lets the one pending activity of the effect happen; [run] repeats it. *)
Record Reply := mkReply { latency : N; outcome : FetchResult; lateness : N }.

Definition Source := nat -> Reply.

Definition next (src : Source) (st : Loop) : Loop :=
  let r := src (Nat.pred (queries st)) in
  match inflight st with
  | Some _ =>
      step (Settle (getReportStatus (outcome r))) (step (Tick (latency r)) st)
  | None =>
      match timers st with
      | t :: _ =>
          step (Fire (tid t))
               (step (Tick (Z.to_N (due t - now st) + lateness r)) st)
      | [] => st
      end
  end.

Fixpoint run (fuel : nat) (src : Source) (st : Loop) : Loop :=
  match fuel with
  | O => st
  | S fuel' => run fuel' src (next src st)
  end.

(** How many more turns of [next] a state can need. *)
Definition budget (st : Loop) : nat :=
  match inflight st, timers st with
  | Some _, _ => 2 * (32 - queries st) + 1
  | None, t :: _ =>
      match cb t with
      | CbPollStatus => 2 * (32 - queries st)
      | CbNavigate _ => 1
      end
  | None, [] => 0
  end.

(** The loops [run] keeps going: the invariant holds and the effect is
    mounted. *)
Definition Live (st : Loop) : Prop := Inv st /\ isMounted st = true.

(** *** The progress estimate on its whole range *)

Fixpoint zrange (n : nat) (s : Z) : list Z :=
  match n with
  | O => []
  | S n' => s :: zrange n' (s + 1)
  end.

(** At [e] ms the double-precision estimate is the exact one, or 62 at
    14000 ms. *)
Definition progress_table_ok (e : Z) : bool :=
  shownProgress e =? (if e =? 14000 then 62 else exactProgress e).

(** *** Answers and runs used below *)

Definition processing_body : ReportStatus := mkReportStatus (Some "processing"%string) None.

Definition completed_body : ReportStatus := mkReportStatus (Some "completed"%string) None.

Definition failed_body (msg : option string) : ReportStatus :=
  mkReportStatus (Some "failed"%string) msg.

(** [apiFetch] on an HTTP 404. *)
Definition not_found : Settled := getReportStatus (Response 404 None).

(** The answer that completes the report. *)
Definition completed_event (ev : Event) : Prop :=
  exists body s,
    ev = Settle (Fulfilled body) /\ status body = Some s /\
    toLowerCase s = "completed"%string.

(** A loop that is polled once at the start and again after 61 s. *)
Definition late_poll : Loop :=
  steps [Settle (Fulfilled processing_body); Tick 61000] (mount 0).

(** A run that ends by timing out: one processing answer, then the poll
    timeout fires 61 s after the start. *)
Definition timed_out_run : Loop :=
  steps [Settle (Fulfilled processing_body); Tick 61000; Fire 1%nat] (mount 0).

(** A run that ends in a failure the server reports, with a message of the
    server's choosing, and the delayed navigation. *)
Definition failed_run (msg : option string) : Loop :=
  steps [Settle (Fulfilled (failed_body msg)); Tick 500; Fire 1%nat] (mount 0).

(** A run that ends in a fatal query error. *)
Definition fatal_run : Loop := steps [Settle not_found] (mount 0).

(** What the rest of the application gets from a finished loop: the calls
    of [setCurrentScreen]. *)
Definition terminal_result (st : Loop) : list Screen := screens st.

(** The state of a loop whose second query is issued 14000 ms after the
    start. *)
Definition polled_at_14s : Loop :=
  steps [Settle (Fulfilled processing_body); Tick 14000; Fire 1%nat] (mount 0).

(** The state of a loop whose first query, issued at the start, is answered
    'processing' 30000 ms later. *)
Definition answered_after_30s : Loop :=
  steps [Tick 30000; Settle (Fulfilled processing_body)] (mount 0).

End PollLoop.

(** * The session and navigation state of [AppProvider] *)

Module Session.

(** At run time a [Screen] or a [Tab] is a string; what [localStorage]
    returns is cast to the type unchecked, so the state holds strings. *)
Record App := mkApp {
  currentScreen : string;      (* useState<Screen>('splash') *)
  activeTab : string;          (* useState<Tab>('home') *)
  isLoggedIn : bool;           (* useState(false) *)
  hasUser : bool;              (* user !== null *)
  isCheckingAuth : bool        (* useState(true) *)
}.

Definition initialApp : App := mkApp "splash" "home" false false true.

Definition setCurrentScreen (s : string) (a : App) : App :=
  mkApp s (activeTab a) (isLoggedIn a) (hasUser a) (isCheckingAuth a).
Definition setActiveTab (t : string) (a : App) : App :=
  mkApp (currentScreen a) t (isLoggedIn a) (hasUser a) (isCheckingAuth a).
Definition setIsLoggedIn (b : bool) (a : App) : App :=
  mkApp (currentScreen a) (activeTab a) b (hasUser a) (isCheckingAuth a).
Definition setUser (b : bool) (a : App) : App :=
  mkApp (currentScreen a) (activeTab a) (isLoggedIn a) b (isCheckingAuth a).
Definition setIsCheckingAuth (b : bool) (a : App) : App :=
  mkApp (currentScreen a) (activeTab a) (isLoggedIn a) (hasUser a) b.

(** [localStorage] *)
Definition screen_key : string := "mediguide_current_screen".
Definition tab_key : string := "mediguide_active_tab".

(** [s !== 'splash' && s !== 'onboarding' && s !== 'login' && s !== 'signup'],
    negated. *)
Definition auth_only (s : string) : bool :=
  String.eqb s (screen_name splash) || String.eqb s (screen_name onboarding)
  || String.eqb s (screen_name login) || String.eqb s (screen_name signup).

(** A string is truthy when it is not empty. *)
Definition truthy (s : string) : bool := negb (String.eqb s "").

(** The effect with dependencies [currentScreen, activeTab, isLoggedIn]
    ("Save state whenever it changes"). *)
Definition persist (a : App) (ls : gmap string string) : gmap string string :=
  let ls1 :=
    if isLoggedIn a && negb (auth_only (currentScreen a))
    then <[screen_key := currentScreen a]> ls else ls in
  if isLoggedIn a && truthy (activeTab a)
  then <[tab_key := activeTab a]> ls1 else ls1.

(** "Restore previous state if available": the part of [initializeAuth]
    and of the SIGNED_IN handler after [await fetchUserProfile].  The two
    differ in the fallback: only the handler also resets the tab. *)
Definition restore (reset_tab : bool) (ls : gmap string string) (a : App) : App :=
  let savedScreen := ls !! screen_key in
  let savedTab := ls !! tab_key in
  match savedScreen with
  | Some sc =>
      if truthy sc && negb (auth_only sc) then
        let a1 := setCurrentScreen sc a in
        match savedTab with
        | Some tb => if truthy tb then setActiveTab tb a1 else a1
        | None => a1
        end
      else
        let a1 := setCurrentScreen (screen_name home) a in
        if reset_tab then setActiveTab "home" a1 else a1
  | None =>
      let a1 := setCurrentScreen (screen_name home) a in
      if reset_tab then setActiveTab "home" a1 else a1
  end.

(** What [getSession] and [getCurrentUser] give [initializeAuth]. *)
Inductive AuthCheck :=
| AuthThrows
| AuthResult (session supabaseUser : bool).

Definition valid_session (c : AuthCheck) : bool :=
  match c with
  | AuthResult session supabaseUser => session && supabaseUser
  | AuthThrows => false
  end.

(** [initializeAuth] up to [await fetchUserProfile(supabaseUser)] (or to its
    end, when there is no valid session). *)
Definition initializeAuth_check (c : AuthCheck) (a : App) : App :=
  if valid_session c then setIsLoggedIn true a
  else setIsCheckingAuth false
         (setCurrentScreen (screen_name onboarding) (setIsLoggedIn false a)).

(** [initializeAuth] after that [await]: the profile is in the state, the
    storage is read, [finally] clears [isCheckingAuth]. *)
Definition initializeAuth_resume (profile : bool) (ls : gmap string string)
    (a : App) : App :=
  setIsCheckingAuth false
    (restore false ls (if profile then setUser true a else a)).

(** The SIGNED_OUT branch of the [onAuthStateChange] callback. *)
Definition signedOut (a : App) (ls : gmap string string) : App * gmap string string :=
  (setActiveTab "home"
     (setCurrentScreen (screen_name onboarding)
        (setUser false (setIsLoggedIn false a))),
   delete tab_key (delete screen_key ls)).

(** The SIGNED_IN branch, before and after its awaits. *)
Definition signedIn_begin (a : App) : App := setIsLoggedIn true a.

Definition signedIn_resume (supabaseUser profile : bool)
    (ls : gmap string string) (a : App) : App :=
  if supabaseUser then restore true ls (if profile then setUser true a else a)
  else a.

(** *** Application start

    React commits a state change once the handler that made it yields, and
    then runs the effects whose dependencies changed.  [initializeAuth]
    yields at [await fetchUserProfile], a request to the backend, right
    after [setIsLoggedIn(true)].  [commit_first] says whether that commit
    and its effects have happened by the time the request returns; a
    render takes less than a network round trip, so in the field it is
    [true].  With [false] the two state changes are committed together. *)
Definition app_start (c : AuthCheck) (profile commit_first : bool)
    (ls : gmap string string) : App * gmap string string :=
  let ls0 := persist initialApp ls in              (* the effects of the mount *)
  let a1 := initializeAuth_check c initialApp in
  if valid_session c then
    let ls1 := if commit_first then persist a1 ls0 else ls0 in
    let a2 := initializeAuth_resume profile ls1 a1 in
    (a2, persist a2 ls1)                           (* commit of a2 *)
  else (a1, persist a1 ls0).

(** Everything that touches the storage: the persistence effect, run on
    whatever state the components have set, and the sign-out. *)
Inductive Action :=
| SetState (a : App)
| RunEffect
| SignOut.

Definition act (x : Action) (w : App * gmap string string)
    : App * gmap string string :=
  match x with
  | SetState a => (a, snd w)
  | RunEffect => (fst w, persist (fst w) (snd w))
  | SignOut => signedOut (fst w) (snd w)
  end.

Definition acts (xs : list Action) (w : App * gmap string string)
    : App * gmap string string :=
  fold_left (fun w x => act x w) xs w.

(** The saved screen, if any, is not an auth-only one. *)
Definition clean (ls : gmap string string) : Prop :=
  forall v, ls !! screen_key = Some v -> auth_only v = false.

(** A storage left by an earlier visit of the history tab. *)
Definition saved_history : gmap string string :=
  <[tab_key := "history"%string]> (<[screen_key := "history"%string]> ∅).

End Session.

(** * More of [ScanningScreen]: the effect as a whole *)

Module ScanningEffect.
Import Api PollLoop.

(** [!currentReportId]: the id is null or the empty string. *)
Definition no_report_id (currentReportId : option string) : bool :=
  match currentReportId with
  | Some id => String.eqb id ""
  | None => true
  end.

(** The branch of the effect for a missing report id: one timeout of 2000 ms
    whose callback tests the [currentReportId] of its closure, which is the
    missing one, and so always calls [setCurrentScreen('scan')].  In this
    branch nothing resets [isMounted], so the guard of [CbNavigate] is
    true whenever the callback runs. *)
Definition redirect_effect (t0 : Z) : nat * Loop :=
  setTimeout (CbNavigate scan) 2000 (initial t0).

(** The body of [useEffect]. *)
Definition effect (currentReportId : option string) (t0 : Z) : Loop :=
  if no_report_id currentReportId then snd (redirect_effect t0)
  else mount t0.

(** The function [useEffect] returns: [clearTimeout(timer)] in the first
    branch, the cleanup of the poll loop in the other. *)
Definition effect_cleanup (currentReportId : option string) (t0 : Z)
    (st : Loop) : Loop :=
  if no_report_id currentReportId then clearTimeout (fst (redirect_effect t0)) st
  else cleanup st.

(** The three statuses the loop knows, after [toLowerCase]. *)
Definition known_status (s : string) : bool :=
  String.eqb s "processing" || String.eqb s "completed" || String.eqb s "failed".

(** A settlement the [catch] block treats as fatal. *)
Definition fatal_settle (ev : Event) : bool :=
  match ev with
  | Settle (Rejected e) => is_fatal e
  | _ => false
  end.

(** What the transport can return that makes the loop simply poll again:
    no session, a network failure, a 2xx answer without a usable status (no
    content, a body that is not JSON, a JSON without [status]), an HTTP
    error other than 404 and 400, or any answer whose body is [null]. *)
Definition retried (f : FetchResult) : bool :=
  match f with
  | NoSession | NetworkError => true
  | Response code json =>
      if negb (response_ok code) then negb ((code =? 404) || (code =? 400))
      else if code =? 204 then true
      else match json with
           | Some r => match status r with Some _ => false | None => true end
           | None => true
           end
  | ResponseNull _ => true
  end.

(** The bar is empty, between 10 and 90, or full. *)
Definition progress_shape (st : Loop) : Prop :=
  (progress st = 0 \/ 10 <= progress st <= 90) \/
  (progress st = 100 /\ inflight st = None /\
   Forall (fun t => cb t = CbNavigate report_result) (timers st)).

End ScanningEffect.

(** * More of the REST client (src/lib/api.ts) *)

Module ApiClient.

(** [!v] for a header value or a parameter: undefined or the empty string. *)
Definition falsy (v : option string) : bool :=
  match v with
  | Some s => String.eqb s ""
  | None => true
  end.

(** The headers [apiFetch] sends, for the caller's [options.headers], whether
    [options.body] is a [FormData], and the session's access token. *)
Definition apiFetch_headers (options_headers : gmap string string)
    (body_is_FormData : bool) (access_token : string) : gmap string string :=
  let headers :=
    <["Authorization"%string := String.append "Bearer " access_token]> options_headers in
  if negb body_is_FormData && falsy (headers !! "Content-Type"%string)
  then <["Content-Type"%string := "application/json"%string]> headers
  else headers.

(** The argument of [listReports].  [page] and [limit] are whole numbers. *)
Record ListParams := mkListParams {
  search : option string;
  report_type : option string;
  flag_level : option string;
  time_range : option string;
  page : option Z;
  limit : option Z;
  user_id : option string;
  status : option string
}.

Section Query.

(** [Number.prototype.toString] *)
Variable toString : Z -> string.

(** [if (v) queryParams.append(k, v)] *)
Definition append_string (k : string) (v : option string)
    (q : list (string * string)) : list (string * string) :=
  match v with
  | Some s => if String.eqb s "" then q else q ++ [(k, s)]
  | None => q
  end.

(** [if (n) queryParams.append(k, n.toString())] *)
Definition append_number (k : string) (v : option Z)
    (q : list (string * string)) : list (string * string) :=
  match v with
  | Some n => if n =? 0 then q else q ++ [(k, toString n)]
  | None => q
  end.

(** [params?.field] *)
Definition field {A} (params : option ListParams) (f : ListParams -> option A)
    : option A :=
  match params with
  | Some p => f p
  | None => None
  end.

(** The entries of [queryParams] when [listReports] calls [apiFetch]. *)
Definition listReports_query (params : option ListParams) : list (string * string) :=
  let q := append_string "search" (field params search) [] in
  let q := append_string "report_type" (field params report_type) q in
  let q := append_string "flag_level" (field params flag_level) q in
  let q := append_string "status" (field params status) q in
  let q := append_string "time_range" (field params time_range) q in
  let q := append_number "page" (field params page) q in
  let q := append_number "limit" (field params limit) q in
  append_string "target_user_id" (field params user_id) q.

End Query.

(** The keys [listReports] can send, in the order it appends them. *)
Definition query_keys : list string :=
  ["search"; "report_type"; "flag_level"; "status"; "time_range"; "page";
   "limit"; "target_user_id"]%string.

End ApiClient.

(** * The history screen's call of [listReports] *)

Module History.
Import ApiClient.

(** The [filters] state, initially All Types / All / All Time. *)
Record Filters := mkFilters {
  filter_type : string;
  filter_flag : string;
  filter_time : string
}.

Definition time_range_of (label : string) : string :=
  if String.eqb label "All Time" then "all"
  else if String.eqb label "Last 7 Days" then "7d"
  else if String.eqb label "Last Month" then "30d"
  else if String.eqb label "Last 3 Months" then "90d"
  else "all".

(** The object [loadReports] passes to [listReports];
    [viewingMember_user_id] is [viewingMember?.user_id]. *)
Definition loadReports_params (filters : Filters)
    (viewingMember_user_id : option string) : ListParams :=
  mkListParams
    None
    (if String.eqb (filter_type filters) "All Types" then None
     else Some (filter_type filters))
    (if String.eqb (filter_flag filters) "All" then None
     else Some (toLowerCase (filter_flag filters)))
    (Some (time_range_of (filter_time filters)))
    (Some 1) (Some 50)
    viewingMember_user_id
    (Some "completed"%string).

(** [handleReportClick] in delete mode: the selection after a click. *)
Definition includes (id : string) (l : list string) : bool :=
  existsb (String.eqb id) l.

Definition toggle_selected (reportId : string) (selectedReports : list string)
    : list string :=
  if includes reportId selectedReports
  then List.filter (fun id => negb (String.eqb id reportId)) selectedReports
  else selectedReports ++ [reportId].

(** A row of [reports]; only [id] is read here. *)
Record Report := mkReport { id : string; labName : string }.

Record HistoryState := mkHistory {
  reports : list Report;
  selectedReports : list string;
  isDeleteMode : bool;
  toasts : list string
}.

(** The [deleteReport] calls [performDelete] makes: none when a family
    member's reports are shown, else one per selected id. *)
Definition performDelete_requests (viewingMember : bool) (h : HistoryState)
    : list string :=
  if viewingMember then [] else selectedReports h.

(** [performDelete], given whether every [deleteReport] succeeded
    ([Promise.all] rejects as soon as one fails). *)
Definition performDelete (viewingMember : bool) (all_deleted : bool)
    (h : HistoryState) : HistoryState :=
  if viewingMember then
    mkHistory (reports h) (selectedReports h) (isDeleteMode h)
              (toasts h ++ ["Cannot delete shared reports"%string])
  else if all_deleted then
    mkHistory
      (List.filter (fun r => negb (includes (id r) (selectedReports h))) (reports h))
      [] false
      (toasts h ++ ["Reports deleted successfully"%string])
  else
    mkHistory (reports h) (selectedReports h) (isDeleteMode h)
              (toasts h ++ ["Failed to delete reports"%string]).

End History.

(** * The scan screen (src/components/screens/ScanScreen.tsx) *)

Module ScanScreen.
Import PollLoop.

(** What the screen reads of a [File]. *)
Record File := mkFile { file_name : string; file_type : string }.

(** The [type] argument of [validateAndAddFiles]: ['image' | 'pdf']. *)
Inductive FileKind := Image | Pdf.

(** [file.type.startsWith('image/')], [file.type === 'application/pdf'] *)
Definition accepted (type : FileKind) (file : File) : bool :=
  match type with
  | Image => String.prefix "image/" (file_type file)
  | Pdf => String.eqb (file_type file) "application/pdf"
  end.

Record ScanState := mkScan {
  capturedImages : list File;
  uploading : bool;
  scan_toasts : list string
}.

(** One turn of the [forEach]: the pair is ([newFiles], [hasInvalidFile]). *)
Definition visit (type : FileKind) (acc : list File * bool) (file : File)
    : list File * bool :=
  if accepted type file then (fst acc ++ [file], snd acc) else (fst acc, true).

Definition kind_name (type : FileKind) : string :=
  match type with Image => "image" | Pdf => "PDF" end.

(** [files] is [None] for a null [FileList]. *)
Definition validateAndAddFiles (files : option (list File)) (type : FileKind)
    (st : ScanState) : ScanState :=
  match files with
  | None | Some [] => st
  | Some fs =>
      let '(newFiles, hasInvalidFile) := fold_left (visit type) fs ([], false) in
      let toasts' :=
        if hasInvalidFile
        then scan_toasts st ++
               [String.append "Please select "
                  (String.append (kind_name type) " files only.")]
        else scan_toasts st in
      match newFiles with
      | [] => mkScan (capturedImages st) (uploading st) toasts'
      | _ => mkScan (capturedImages st ++ newFiles) (uploading st) toasts'
      end
  end.

(** [array.filter((_, i) => p(i))], from index [i] on. *)
Fixpoint filter_index {A} (p : nat -> bool) (i : nat) (l : list A) : list A :=
  match l with
  | [] => []
  | x :: r => if p i then x :: filter_index p (S i) r else filter_index p (S i) r
  end.

Definition removeImage (index : nat) (st : ScanState) : ScanState :=
  mkScan (filter_index (fun i => negb (Nat.eqb i index)) 0 (capturedImages st))
         (uploading st) (scan_toasts st).

(** How [uploadReport] ends. *)
Inductive UploadResult :=
| Uploaded (report_id : string)
| UploadFailed (message : option string).

(** The part of the application state [handleScan] sets. *)
Record Nav := mkNav { currentReportId : option string; currentScreen : Screen }.

(** The file [handleScan] passes to [uploadReport], if it uploads at all. *)
Definition handleScan_upload (st : ScanState) : option File :=
  match capturedImages st with
  | [] => None
  | file :: _ => Some file
  end.

(** [handleScan] from start to end, for the way the upload ends. *)
Definition handleScan (result : UploadResult) (st : ScanState) (nav : Nav)
    : ScanState * Nav :=
  match capturedImages st with
  | [] =>
      (mkScan (capturedImages st) (uploading st)
              (scan_toasts st ++ ["Please select at least one document"%string]),
       nav)
  | _ :: _ =>
      match result with
      | Uploaded report_id =>
          (mkScan (capturedImages st) false
                  (scan_toasts st ++ ["Document uploaded successfully!"%string]),
           mkNav (Some report_id) scanning)
      | UploadFailed message =>
          (mkScan (capturedImages st) false
                  (scan_toasts st ++
                     [match message with
                      | Some m => if String.eqb m "" then
                                    "Failed to upload document. Please try again."%string
                                  else m
                      | None => "Failed to upload document. Please try again."%string
                      end]),
           mkNav (currentReportId nav) scan_error)
      end
  end.

End ScanScreen.

(** * The profile row (contexts/AppContext, [fetchUserProfile]) *)

Module Profile.

(** [s.split(' ')] *)
Fixpoint split_space (s : string) : list string :=
  match s with
  | EmptyString => [EmptyString]
  | String c r =>
      if Ascii.eqb c " " then EmptyString :: split_space r
      else match split_space r with
           | h :: t => String c h :: t
           | [] => [String c EmptyString]
           end
  end.

(** [fullName.split(' ')] for [fullName = profileData.full_name ?? ''] *)
Definition nameParts (full_name : option string) : list string :=
  split_space (match full_name with Some s => s | None => EmptyString end).

(** [nameParts[0] ?? ''] *)
Definition firstName (full_name : option string) : string :=
  match nameParts full_name with
  | h :: _ => h
  | [] => EmptyString
  end.

(** [nameParts.slice(1).join(' ')] *)
Definition lastName (full_name : option string) : string :=
  String.concat " " (tl (nameParts full_name)).

Fixpoint has_space (s : string) : bool :=
  match s with
  | EmptyString => false
  | String c r => Ascii.eqb c " " || has_space r
  end.

End Profile.

(** * The auth listener of [AppProvider] (contexts/AppContext) *)

Module AuthEvents.
Import Session.

(** The [onAuthStateChange] callback up to its first [await]; [session] says
    whether the session passed with the event is non-null. *)
Definition onAuthStateChange (event : string) (session : bool)
    (w : App * gmap string string) : App * gmap string string :=
  if String.eqb event "SIGNED_IN" && session then (signedIn_begin (fst w), snd w)
  else if String.eqb event "SIGNED_OUT" then signedOut (fst w) (snd w)
  else if String.eqb event "TOKEN_REFRESHED" && session
       then (setIsLoggedIn true (fst w), snd w)
  else w.

(** The dependencies of the persistence effect,
    [[currentScreen, activeTab, isLoggedIn]], are the same in both states. *)
Definition same_deps (a b : App) : bool :=
  String.eqb (currentScreen a) (currentScreen b)
  && String.eqb (activeTab a) (activeTab b)
  && Bool.eqb (isLoggedIn a) (isLoggedIn b).

(** The commit that takes the state from [old] to [new].  React runs an
    effect after a commit only if one of its dependencies has changed; a
    [setState] with the value the state already has changes none. *)
Definition commit (old new : App) (ls : gmap string string)
    : gmap string string :=
  if same_deps old new then ls else persist new ls.

(** A SIGNED_IN event from the callback to the commit of its last state
    change.  The handler yields at [await getCurrentUser()] and at
    [await fetchUserProfile(..)]; [commit_first] is as in [app_start]: the
    state set by [setIsLoggedIn(true)] is committed before the storage is
    read.  That commit runs the persistence effect only when the state was
    not logged in before. *)
Definition sign_in (supabaseUser profile commit_first : bool)
    (w : App * gmap string string) : App * gmap string string :=
  let a0 := fst w in
  let a1 := signedIn_begin a0 in
  let ls1 := if commit_first then commit a0 a1 (snd w) else snd w in
  let a2 := signedIn_resume supabaseUser profile ls1 a1 in
  (a2, commit (if commit_first then a1 else a0) a2 ls1).

(** No state set by the actions is a logged-in one. *)
Definition stays_logged_out (xs : list Action) : bool :=
  forallb (fun x => match x with
                    | SetState a => negb (isLoggedIn a)
                    | RunEffect => true
                    | SignOut => true
                    end) xs.

End AuthEvents.

(** * Properties of the poll loop *)

Module PollLoopFacts.
Import Api PollLoop.

(** *** The progress estimate, value by value

    [elapsed] is a whole number of milliseconds between 0 and 60000 whenever
    the estimate is computed, so the double-precision result is compared
    with the exact one on that whole range.  They differ at 14000 ms only:
    14000 / 20000 rounds to a double just below 0.7, and the product with 90
    to the double just below 63. *)

Lemma In_zrange n : forall s e, s <= e < s + Z.of_nat n -> In e (zrange n s).
Proof.
  induction n as [| n IH]; intros s e He; [lia|].
  simpl. destruct (Z.eq_dec s e) as [-> | Hne]; [now left | right].
  apply IH. lia.
Qed.

Lemma progress_table :
  forallb progress_table_ok (zrange (Z.to_nat 60001) 0) = true.
Proof. vm_compute. reflexivity. Qed.

Lemma shownProgress_spec e :
  0 <= e <= 60000 ->
  shownProgress e = if e =? 14000 then 62 else exactProgress e.
Proof.
  intros He. pose proof progress_table as Ht.
  rewrite forallb_forall in Ht.
  specialize (Ht e (In_zrange (Z.to_nat 60001) 0 e ltac:(lia))).
  unfold progress_table_ok in Ht. now apply Z.eqb_eq in Ht.
Qed.

Lemma exactProgress_mono a b : a <= b -> exactProgress a <= exactProgress b.
Proof.
  intros Hab. unfold exactProgress.
  apply Z.max_le_compat_r, Z.min_le_compat_r, Z.div_le_mono; lia.
Qed.

Lemma exactProgress_bounds e : 10 <= exactProgress e <= 90.
Proof. unfold exactProgress. lia. Qed.

Lemma shownProgress_mono a b :
  0 <= a -> a <= b -> b <= 60000 -> shownProgress a <= shownProgress b.
Proof.
  intros H0 Hab Hb.
  rewrite !shownProgress_spec by lia.
  destruct (Z.eqb_spec a 14000) as [-> | Ha], (Z.eqb_spec b 14000) as [-> | Hb'].
  - lia.
  - transitivity (exactProgress 14001); [now vm_compute|].
    apply exactProgress_mono. lia.
  - transitivity (exactProgress 13999); [| now vm_compute].
    apply exactProgress_mono. lia.
  - now apply exactProgress_mono.
Qed.

Lemma shownProgress_bounds e : 10 <= shownProgress e <= 90.
Proof. unfold shownProgress, estimatedProgress. lia. Qed.

Lemma Inv_mount t0 : Inv (mount t0).
Proof.
  unfold mount, pollStatus, initial, issue_query; simpl.
  replace (t0 - t0) with 0 by lia. simpl.
  constructor; try lia. pose proof (shownProgress_bounds 0). lia.
Qed.

(** Unfold the state updates of the handlers down to the record. *)
Ltac unf :=
  unfold step, run_callback, cleanup, find_timer, pollStatus_resume,
    pollStatus_catch, pollStatus, schedule_poll, issue_query, clearTimeout,
    setTimeout, setCurrentScreen, toast_error, set_inflight, set_pollingRef,
    setProgress, set_isMounted, advance in *;
  simpl in *.

(** The same by call-by-value, for goals where several handlers are
    composed on an explicit record. *)
Ltac unf_cbv :=
  cbv [step run_callback cleanup find_timer pollStatus_resume
       pollStatus_catch pollStatus schedule_poll issue_query clearTimeout
       setTimeout setCurrentScreen toast_error set_inflight set_pollingRef
       setProgress set_isMounted advance
       now isMounted startTimeRef progress pollingRef timers nextTimer
       inflight queries toasts screens fst snd negb];
  simpl.

Ltac break_if :=
  match goal with
  | |- context [if ?c then _ else _] => destruct c eqn:?
  | |- context [match ?c with Some _ => _ | None => _ end] => destruct c eqn:?
  end.

Ltac inv_close :=
  econstructor; simpl; try eassumption; try lia;
  try (eapply Z.le_trans; [eassumption | apply shownProgress_mono; lia]);
  try (apply shownProgress_mono; lia);
  try (intros; discriminate);
  try (unfold terminal_screen; now auto).

Lemma Inv_step ev st : Inv st -> Inv (step ev st).
Proof.
  intros H. destruct H; destruct ev as [d0 | r | i | ]; unf.
  - (* in flight, tick *) inv_close.
  - (* in flight, settle *)
    destruct r as [body | err]; simpl.
    + destruct m; simpl; [| inv_close].
      destruct body as [[s|] msg]; simpl.
      * repeat break_if; simpl; inv_close.
      * inv_close.
    + destruct (is_fatal err); simpl; [inv_close|].
      destruct m; simpl; inv_close.
  - (* in flight, fire *) inv_close.
  - (* in flight, unmount *)
    destruct ref as [r|]; simpl; [destruct (Nat.eqb r 0)|]; simpl; inv_close.
  - (* waiting, tick *) inv_close.
  - (* waiting, settle *) inv_close.
  - (* waiting, fire *)
    destruct (Nat.eqb id i) eqn:Hi; simpl; [| inv_close].
    destruct (d <=? t) eqn:Hd; simpl; [| inv_close].
    destruct (60000 <? t - start) eqn:Ht; simpl; inv_close.
  - (* waiting, unmount *)
    destruct id as [|id']; [congruence|]; simpl.
    rewrite Nat.eqb_refl; simpl. inv_close.
  - (* leaving, tick *) inv_close.
  - (* leaving, settle *) inv_close.
  - (* leaving, fire *)
    destruct (Nat.eqb id i) eqn:Hi; simpl; [| inv_close].
    destruct (d <=? t) eqn:Hd; simpl; [| inv_close].
    destruct m; simpl; inv_close.
  - (* leaving, unmount *)
    destruct ref as [r|]; simpl; [| inv_close].
    destruct (Nat.eqb r 0); simpl; [inv_close|].
    destruct (Nat.eqb id r); simpl; inv_close.
  - (* idle, tick *) inv_close.
  - (* idle, settle *) inv_close.
  - (* idle, fire *) inv_close.
  - (* idle, unmount *)
    destruct ref as [r|]; simpl; [destruct (Nat.eqb r 0)|]; simpl; inv_close.
Qed.

Lemma Inv_reachable st : reachable st -> Inv st.
Proof.
  induction 1; [apply Inv_mount | now apply Inv_step].
Qed.

Lemma Inv_steps evs st : Inv st -> Inv (steps evs st).
Proof.
  revert st. induction evs as [| ev evs IH]; simpl; intros st H; [assumption|].
  apply IH. now apply Inv_step.
Qed.

Lemma reachable_steps evs st : reachable st -> reachable (steps evs st).
Proof.
  revert st. induction evs as [| ev evs IH]; simpl; intros st H; [assumption|].
  apply IH. now constructor.
Qed.

(** *** Idle states stay idle *)

Lemma quiescent_step ev st :
  quiescent st ->
  quiescent (step ev st) /\ screens (step ev st) = screens st /\
  queries (step ev st) = queries st /\ progress (step ev st) = progress st /\
  toasts (step ev st) = toasts st.
Proof.
  destruct st as [t m start p ref tm nt fl q ts scr].
  unfold quiescent; simpl. intros [-> ->].
  destruct ev as [d | r | i | ]; unf; auto.
  destruct ref as [r|]; simpl; [destruct (Nat.eqb r 0)|]; simpl; auto.
Qed.

Lemma quiescent_steps evs : forall st,
  quiescent st ->
  quiescent (steps evs st) /\ screens (steps evs st) = screens st /\
  queries (steps evs st) = queries st /\ progress (steps evs st) = progress st /\
  toasts (steps evs st) = toasts st.
Proof.
  induction evs as [| ev evs IH]; simpl; intros st Hq; [auto|].
  destruct (quiescent_step ev st Hq) as (Hq' & Hs & Hn & Hp & Ht).
  destruct (IH _ Hq') as (H1 & H2 & H3 & H4 & H5).
  split; [exact H1|]. repeat split; congruence.
Qed.

(** *** The driven loop ends *)

Lemma step_isMounted ev st :
  ev <> Unmount -> isMounted (step ev st) = isMounted st.
Proof.
  intros Hev. destruct st as [t m start p ref tm nt fl q ts scr].
  destruct ev as [d | r | i | ]; [| | | congruence]; unf.
  - reflexivity.
  - destruct fl; [| reflexivity].
    destruct r as [body | err]; simpl; repeat break_if; reflexivity.
  - destruct (List.find _ tm) as [tmr|]; [| reflexivity].
    destruct (due tmr <=? t); [| reflexivity].
    destruct (cb tmr); simpl; repeat break_if; reflexivity.
Qed.

Lemma Live_mount t0 : Live (mount t0).
Proof.
  split; [apply Inv_mount|].
  unfold mount, pollStatus, initial, issue_query; simpl.
  replace (t0 - t0) with 0 by lia. reflexivity.
Qed.

Lemma next_reachable src st : reachable st -> reachable (next src st).
Proof.
  intros H. unfold next.
  destruct (inflight st); [do 2 constructor; assumption|].
  destruct (timers st); [assumption | do 2 constructor; assumption].
Qed.

Lemma run_reachable fuel src : forall st, reachable st -> reachable (run fuel src st).
Proof.
  induction fuel as [| fuel IH]; simpl; intros st H; [assumption|].
  apply IH. now apply next_reachable.
Qed.

Lemma next_Live src st : Live st -> Live (next src st).
Proof.
  intros [HI Hm]. unfold next.
  destruct (inflight st).
  - split; [do 2 apply Inv_step; assumption|].
    rewrite !step_isMounted by discriminate. assumption.
  - destruct (timers st); [now split|].
    split; [do 2 apply Inv_step; assumption|].
    rewrite !step_isMounted by discriminate. assumption.
Qed.

Lemma next_budget src st :
  Live st -> quiescent st \/ (budget (next src st) < budget st)%nat.
Proof.
  intros [HI Hm].
  destruct HI; simpl in Hm; subst; unfold next, quiescent; simpl;
    try set (r := src _); unf.
  - right.
    destruct (getReportStatus (outcome r)) as [body | err]; simpl.
    + destruct body as [[s|] msg]; simpl.
      * repeat break_if; unfold budget; simpl; lia.
      * unfold budget; simpl; lia.
    + destruct (is_fatal err); unfold budget; simpl; lia.
  - right.
    rewrite Nat.eqb_refl; simpl.
    replace (d <=? t + Z.of_N (Z.to_N (d - t) + lateness r)) with true
      by (symmetry; apply Z.leb_le; lia).
    simpl.
    destruct (60000 <? t + Z.of_N (Z.to_N (d - t) + lateness r) - start) eqn:Ht;
      unfold budget; simpl; [lia|].
    apply Z.ltb_ge in Ht. lia.
  - right.
    rewrite Nat.eqb_refl; simpl.
    replace (d <=? t + Z.of_N (Z.to_N (d - t) + lateness r)) with true
      by (symmetry; apply Z.leb_le; lia).
    unfold budget; simpl. lia.
  - left. split; reflexivity.
Qed.

Lemma next_quiescent src st : quiescent st -> next src st = st.
Proof. intros [Hi Ht]. unfold next. now rewrite Hi, Ht. Qed.

Lemma run_quiescent fuel src : forall st, quiescent st -> run fuel src st = st.
Proof.
  induction fuel as [| fuel IH]; simpl; intros st Hq; [reflexivity|].
  rewrite next_quiescent by assumption. now apply IH.
Qed.

Lemma budget_zero st : Inv st -> budget st = 0%nat -> quiescent st.
Proof.
  intros HI.
  destruct HI; unfold budget, quiescent; simpl in *; intros Hb;
    try (exfalso; lia); auto.
Qed.

Lemma run_ends fuel src : forall st,
  Live st -> (budget st <= fuel)%nat ->
  Live (run fuel src st) /\ quiescent (run fuel src st).
Proof.
  induction fuel as [| fuel IH]; simpl; intros st HL Hb.
  - split; [assumption|]. apply budget_zero; [apply HL | lia].
  - destruct (next_budget src st HL) as [Hq | Hlt].
    + rewrite next_quiescent by assumption.
      rewrite run_quiescent by assumption. now split.
    + apply IH; [now apply next_Live | lia].
Qed.

Lemma Live_quiescent st :
  Live st -> quiescent st ->
  length (screens st) = 1%nat /\ (queries st <= 31)%nat.
Proof.
  intros [HI Hm] [Hi Ht].
  destruct HI; simpl in *; try discriminate. auto.
Qed.

Lemma budget_mount t0 : budget (mount t0) = 63%nat.
Proof.
  unfold mount, pollStatus, initial, issue_query, budget; simpl.
  replace (t0 - t0) with 0 by lia. reflexivity.
Qed.

Lemma Inv_screens st : Inv st -> (length (screens st) <= 1)%nat.
Proof. intros H; destruct H; simpl; lia. Qed.

(** C1.  Whatever the status source answers, and however late answers and
    timeouts arrive, a loop started on a bound job and left mounted ends
    after at most 63 turns with exactly one call of [setCurrentScreen], to
    a terminal screen, nothing in flight and nothing scheduled; it has
    issued at most 31 queries; and from then on no event adds a navigation
    or a query.  On any interleaving at all (cancellation included) there
    are never two navigations. *)
Theorem terminal_exactly_once (src : Source) (t0 : Z) (n : nat) :
  let st := run (63 + n) src (mount t0) in
  (exists s, screens st = [s] /\ terminal_screen s) /\
  quiescent st /\ (queries st <= 31)%nat /\
  (forall evs, screens (steps evs st) = screens st /\
               queries (steps evs st) = queries st /\
               quiescent (steps evs st)) /\
  (forall st', reachable st' -> (length (screens st') <= 1)%nat).
Proof.
  intros st.
  destruct (run_ends (63 + n) src (mount t0) (Live_mount t0)) as [HL Hq].
  { rewrite budget_mount. lia. }
  fold st in HL, Hq.
  destruct (Live_quiescent st HL Hq) as [Hlen Hqs].
  repeat split; try apply Hq; try assumption.
  - destruct HL as [HI _]. destruct HI; simpl in *; try (destruct Hq; discriminate).
    destruct scr as [| s [| s' scr]]; simpl in *; try lia.
    exists s. split; [reflexivity|]. now inversion H3.
  - apply (quiescent_steps evs st Hq).
  - apply (quiescent_steps evs st Hq).
  - apply (quiescent_steps evs st Hq).
  - apply (quiescent_steps evs st Hq).
  - intros st' Hr. apply Inv_screens. now apply Inv_reachable.
Qed.

(** *** Cancellation *)

(** After the cleanup, a status snapshot or an error that is not fatal
    changes nothing the user can see and schedules nothing. *)
Lemma cancel_suppresses_nonfatal (st : Loop) (r : Settled) :
  isMounted st = false ->
  (forall err, r = Rejected err -> is_fatal err = false) ->
  let st' := step (Settle r) st in
  screens st' = screens st /\ toasts st' = toasts st /\
  progress st' = progress st /\ timers st' = timers st /\
  queries st' = queries st.
Proof.
  destruct st as [t m start p ref tm nt fl q ts scr]; simpl.
  intros -> Hr. unf. destruct fl; [| now auto].
  destruct r as [body | err]; simpl; [now auto|].
  rewrite (Hr err eq_refl). now auto.
Qed.

(** C2.  The cleanup runs while the first query is in flight; the query
    then fails with HTTP 404.  The [catch] block does not look at
    [isMounted] before its fatal branch: the toast is shown and
    [setCurrentScreen('scan-error')] is called after the cancellation. *)
Theorem cancel_then_fatal_still_navigates :
  let cancelled := step Unmount (mount 0) in
  let st := step (Settle not_found) cancelled in
  isMounted cancelled = false /\ inflight cancelled = Some 0 /\
  screens cancelled = [] /\ toasts cancelled = [] /\
  screens st = [scan_error] /\ toasts st = [msg_fatal].
Proof. vm_compute. repeat split; reflexivity. Qed.

(** *** The timeout check *)

(** C3.  [pollStatus] reads the clock before it calls [getReportStatus]:
    run on a mounted effect more than 60000 ms after the start it shows the
    timeout toast, navigates to the error screen and returns, without a
    query and without a new timeout, whatever the state was; so does the
    due poll timeout; and no event at all issues a query past 60000 ms. *)
Theorem timeout_precedes_query (st : Loop) (ev : Event) :
  isMounted st = true ->
  60000 < now st - startTimeRef st ->
  (screens (pollStatus st) = screens st ++ [scan_error] /\
   toasts (pollStatus st) = toasts st ++ [msg_timeout] /\
   queries (pollStatus st) = queries st /\
   inflight (pollStatus st) = inflight st /\
   timers (pollStatus st) = timers st /\
   progress (pollStatus st) = progress st) /\
  (forall id tm,
      find_timer id st = Some tm -> cb tm = CbPollStatus -> due tm <= now st ->
      step (Fire id) st = pollStatus (clearTimeout id st) /\
      screens (step (Fire id) st) = screens st ++ [scan_error] /\
      queries (step (Fire id) st) = queries st) /\
  queries (step ev st) = queries st.
Proof.
  destruct st as [t m start p ref tm nt fl q ts scr]; simpl.
  intros -> Hlate. apply Z.ltb_lt in Hlate.
  split; [| split].
  - unf. rewrite Hlate. simpl. now auto.
  - intros id tmr Hf Hc Hd. unf. rewrite Hf.
    apply Z.leb_le in Hd. rewrite Hd, Hc. simpl. rewrite Hlate. simpl. now auto.
  - destruct ev as [d | r | i | ]; unf.
    + reflexivity.
    + destruct fl; [| reflexivity].
      destruct r as [body | err]; simpl; repeat break_if; reflexivity.
    + destruct (List.find _ tm) as [tmr|]; [| reflexivity].
      destruct (due tmr <=? t); [| reflexivity].
      destruct (cb tmr); simpl; [rewrite Hlate|]; reflexivity.
    + destruct ref as [r|]; [destruct (Nat.eqb r 0)|]; reflexivity.
Qed.

Lemma timeout_precedes_query_witness :
  screens (pollStatus late_poll) = screens late_poll ++ [scan_error] /\
  queries (step (Fire 1%nat) late_poll) = queries late_poll.
Proof.
  assert (Hm : isMounted late_poll = true) by reflexivity.
  assert (Ht : 60000 < now late_poll - startTimeRef late_poll) by (vm_compute; reflexivity).
  destruct (timeout_precedes_query late_poll (Fire 1%nat) Hm Ht) as [H1 [_ H3]].
  split; [apply H1 | exact H3].
Defined.

(** *** Timeout and failure *)

(** C4, as stated, fails: the timed-out run and the failed runs hand the
    caller the same screen, and with a server message equal to the timeout
    text the toasts agree as well. *)
Lemma timeout_same_screen_as_failure :
  terminal_result timed_out_run = [scan_error] /\
  terminal_result (failed_run None) = terminal_result timed_out_run /\
  terminal_result fatal_run = terminal_result timed_out_run /\
  toasts (failed_run (Some msg_timeout)) = toasts timed_out_run.
Proof. vm_compute. repeat split; reflexivity. Qed.

(** C4, amended.  A timeout, a failure reported by the server and a fatal
    query error all navigate to ['scan-error']; they differ in the toast
    only.  The timeout toast is a fixed text, different from the text of
    the fatal error and from the text used when the server sends no
    message (or an empty one); a message the server does send is shown as
    it is. *)
Theorem timeout_differs_by_toast_only (st : Loop) (body : ReportStatus)
    (s : string) (err : ApiError) (e : Z) :
  isMounted st = true ->
  status body = Some s -> toLowerCase s = "failed"%string ->
  is_fatal err = true ->
  (60000 < now st - startTimeRef st ->
     screens (pollStatus st) = screens st ++ [scan_error] /\
     toasts (pollStatus st) = toasts st ++ [msg_timeout]) /\
  (screens (pollStatus_catch err st) = screens st ++ [scan_error] /\
   toasts (pollStatus_catch err st) = toasts st ++ [msg_fatal]) /\
  (let st' := pollStatus_resume e (Fulfilled body) st in
   toasts st' = toasts st ++ [failure_message body] /\
   timers st' = timers st ++ [mkTimer (nextTimer st) (now st + 500) (CbNavigate scan_error)] /\
   screens (run_callback (CbNavigate scan_error) st') = screens st ++ [scan_error]) /\
  msg_timeout <> msg_fatal /\ msg_timeout <> msg_failed /\
  (error_message body = None \/ error_message body = Some ""%string ->
     failure_message body = msg_failed) /\
  (forall m, error_message body = Some m -> m <> ""%string ->
     failure_message body = m).
Proof.
  destruct st as [t m start p ref tm nt fl q ts scr]; simpl.
  intros -> Hs Hf Hfat.
  repeat split; unf.
  - apply Z.ltb_lt in H. now rewrite H.
  - apply Z.ltb_lt in H. now rewrite H.
  - now rewrite Hfat.
  - now rewrite Hfat.
  - rewrite Hs, Hf. reflexivity.
  - rewrite Hs, Hf. reflexivity.
  - rewrite Hs, Hf. reflexivity.
  - discriminate.
  - discriminate.
  - unfold failure_message. intros [-> | ->]; reflexivity.
  - intros m0 Hm Hne. unfold failure_message. rewrite Hm.
    destruct (String.eqb_spec m0 ""); [contradiction | reflexivity].
Qed.

Lemma timeout_differs_by_toast_only_witness :
  toasts (pollStatus_catch (mkApiError (Some 404)) (initial 0)) = [msg_fatal] /\
  msg_timeout <> msg_fatal.
Proof.
  destruct (timeout_differs_by_toast_only (initial 0) (failed_body None)
              "failed"%string (mkApiError (Some 404)) 0
              eq_refl eq_refl eq_refl eq_refl)
    as (_ & [_ H2] & _ & H4 & _).
  split; [exact H2 | exact H4].
Defined.

(** *** The processing branch *)

(** C5, as stated, fails, in two ways.  The [elapsed] of the formula is
    read before the query is issued, not when its answer arrives: a query
    issued at the start and answered 'processing' 30000 ms later sets the
    progress to 10, where the formula at 30000 ms since the start gives 90
    (in double and in exact arithmetic).  And the formula is evaluated in
    doubles: for a query issued, and answered, 14000 ms after the start
    the progress set is 62, where the exact value of
    floor (elapsed / 20000 * 90) is 63. *)
Lemma processing_progress_differs :
  let late := answered_after_30s in
  let st := step (Settle (Fulfilled processing_body)) polled_at_14s in
  (inflight (step (Tick 30000) (mount 0)) = Some 0 /\
   now late - startTimeRef late = 30000 /\
   progress late = 10 /\
   shownProgress 30000 = 90 /\ exactProgress 30000 = 90 /\
   timers late = [mkTimer 1 32000 CbPollStatus] /\ screens late = []) /\
  (inflight polled_at_14s = Some 14000 /\
   now st - startTimeRef st = 14000 /\
   progress st = 62 /\
   exactProgress 14000 = 63).
Proof. vm_compute. repeat split; reflexivity. Qed.

Lemma pollStatus_issues st :
  isMounted st = true -> now st - startTimeRef st <= 60000 ->
  pollStatus st = issue_query (now st - startTimeRef st) st.
Proof.
  intros Hm He. unfold pollStatus. rewrite Hm. simpl.
  apply Z.ltb_ge in He. now rewrite He.
Qed.

(** C5, amended.  [pollStatus] is entered on a mounted effect [elapsed] ms
    after the start (within the 60 s), the answer arrives [d] ms later with
    status processing (in any letter case).  Then the progress is set to
    [Math.max(Math.min(Math.floor((elapsed / 20000) * 90), 90), 10)] as
    double arithmetic evaluates it, for the [elapsed] read before the
    query: the exact value when [elapsed] is not 14000, and 62 at 14000.
    No screen and no toast is added, and [pollStatus] is scheduled 2000 ms
    after the answer. *)
Theorem processing_response (st : Loop) (d : N) (body : ReportStatus) (s : string) :
  isMounted st = true ->
  0 <= now st - startTimeRef st <= 60000 ->
  status body = Some s -> toLowerCase s = "processing"%string ->
  let elapsed := now st - startTimeRef st in
  let st1 := step (Tick d) (pollStatus st) in
  let st2 := step (Settle (Fulfilled body)) st1 in
  inflight st1 = Some elapsed /\
  progress st2 = shownProgress elapsed /\
  (elapsed <> 14000 -> progress st2 = exactProgress elapsed) /\
  (elapsed = 14000 -> progress st2 = 62) /\
  timers st2 = timers st ++ [mkTimer (nextTimer st) (now st + Z.of_N d + 2000) CbPollStatus] /\
  pollingRef st2 = Some (nextTimer st) /\
  screens st2 = screens st /\ toasts st2 = toasts st /\
  queries st2 = S (queries st) /\
  inflight st2 = None /\ isMounted st2 = true.
Proof.
  intros Hm He Hs Hp elapsed st1 st2. subst st2 st1 elapsed.
  rewrite pollStatus_issues by (assumption || lia).
  destruct st as [t m start p ref tm nt fl q ts scr]; simpl in *. subst m.
  unf_cbv. rewrite Hs, Hp. simpl.
  repeat split.
  - intros Hne. rewrite shownProgress_spec by lia.
    destruct (Z.eqb_spec (t - start) 14000); [contradiction | reflexivity].
  - intros Heq. rewrite shownProgress_spec by lia.
    rewrite Heq. reflexivity.
Qed.

(** The same for any state with a query in flight, whose [elapsed] is the
    one captured when the query was issued. *)
Lemma processing_response_inflight (st : Loop) (e : Z) (body : ReportStatus)
    (s : string) :
  isMounted st = true -> inflight st = Some e ->
  status body = Some s -> toLowerCase s = "processing"%string ->
  let st' := step (Settle (Fulfilled body)) st in
  progress st' = shownProgress e /\
  timers st' = timers st ++ [mkTimer (nextTimer st) (now st + 2000) CbPollStatus] /\
  screens st' = screens st /\ toasts st' = toasts st /\
  queries st' = queries st /\ inflight st' = None.
Proof.
  destruct st as [t m start p ref tm nt fl q ts scr]; simpl.
  intros -> -> Hs Hp. unf_cbv. rewrite Hs, Hp. simpl. now auto.
Qed.

Lemma processing_response_witness :
  progress (step (Settle (Fulfilled processing_body)) (step (Tick 300) (pollStatus (initial 0))))
  = shownProgress 0.
Proof.
  assert (Hr : 0 <= now (initial 0) - startTimeRef (initial 0) <= 60000)
    by (simpl; lia).
  destruct (processing_response (initial 0) 300 processing_body "processing"%string
              eq_refl Hr eq_refl eq_refl) as (_ & H & _).
  exact H.
Defined.

(** *** Progress *)

Lemma step_progress ev st :
  Inv st ->
  progress st <= progress (step ev st) /\
  (progress (step ev st) = 100 -> progress st = 100 \/ completed_event ev).
Proof.
  intros HI. destruct HI; destruct ev as [d0 | r | i | ]; unf;
    try (split; [lia | now left]).
  - (* a query in flight settles *)
    pose proof (shownProgress_bounds e) as Hb.
    destruct r as [body | err]; simpl.
    + destruct m; simpl; [| split; [lia | now left]].
      destruct body as [[s|] msg]; simpl; [| split; [lia | now left]].
      destruct (String.eqb_spec (toLowerCase s) "processing"); simpl.
      * split; [lia | intros Heq; lia].
      * destruct (String.eqb_spec (toLowerCase s) "completed"); simpl.
        -- split; [lia|]. intros _. right.
           exists (mkReportStatus (Some s) msg), s. now auto.
        -- repeat break_if; simpl; (split; [lia | now left]).
    + repeat break_if; simpl; (split; [lia | now left]).
  - destruct ref as [r|]; [destruct (Nat.eqb r 0)|]; simpl; (split; [lia | now left]).
  - repeat break_if; simpl; (split; [lia | now left]).
  - destruct id as [|id']; [congruence|]. simpl. split; [lia | now left].
  - repeat break_if; simpl; (split; [lia | now left]).
  - destruct ref as [r|]; [destruct (Nat.eqb r 0)|]; simpl; (split; [lia | now left]).
  - destruct ref as [r|]; [destruct (Nat.eqb r 0)|]; simpl; (split; [lia | now left]).
Qed.

Lemma steps_progress evs : forall st, Inv st -> progress st <= progress (steps evs st).
Proof.
  induction evs as [| ev evs IH]; simpl; intros st HI; [lia|].
  transitivity (progress (step ev st)).
  - now apply step_progress.
  - apply IH. now apply Inv_step.
Qed.

(** C6.  In every state a mounted effect can reach, by any events in any
    order: an event never lowers the progress, nor does any sequence of
    events; and an event brings the progress to 100 only if it is the
    answer with status completed.  The progress starts at 0. *)
Theorem progress_monotone (st : Loop) (ev : Event) (evs : list Event) :
  reachable st ->
  progress st <= progress (step ev st) /\
  progress st <= progress (steps evs st) /\
  (progress (step ev st) = 100 -> progress st = 100 \/ completed_event ev) /\
  (forall t0, progress (mount t0) = 0).
Proof.
  intros Hr. apply Inv_reachable in Hr.
  destruct (step_progress ev st Hr) as [H1 H2].
  repeat split; try assumption.
  - now apply steps_progress.
  - intros t0. unfold mount, pollStatus, initial, issue_query; simpl.
    replace (t0 - t0) with 0 by lia. reflexivity.
Qed.

Lemma progress_monotone_witness :
  progress polled_at_14s <= progress (step (Settle (Fulfilled completed_body)) polled_at_14s) /\
  progress polled_at_14s <= progress (steps [Tick 10; Unmount] polled_at_14s).
Proof.
  assert (Hr : reachable polled_at_14s).
  { unfold polled_at_14s. apply reachable_steps. constructor. }
  destruct (progress_monotone polled_at_14s (Settle (Fulfilled completed_body))
              [Tick 10; Unmount] Hr) as (H1 & H2 & _).
  split; [exact H1 | exact H2].
Defined.

(** *** Errors of the query *)

(** C7.  A query of a mounted effect fails with an error whose status is
    neither 404 nor 400 (a network failure has none).  Nothing the user
    sees changes: no screen, no toast, no progress; [pollStatus] is
    scheduled 2000 ms later and runs no earlier.  When it runs, the
    timeout check applies: past 60000 ms it ends the loop on the error
    screen without a query, otherwise it issues the next query. *)
Theorem transient_error_retries (st : Loop) (e : Z) (err : ApiError) (d : N) :
  reachable st -> isMounted st = true -> inflight st = Some e ->
  is_fatal err = false ->
  let st' := step (Settle (Rejected err)) st in
  let st2 := step (Fire (nextTimer st)) (step (Tick d) st') in
  (screens st' = screens st /\ toasts st' = toasts st /\
   progress st' = progress st /\ queries st' = queries st /\
   inflight st' = None /\
   timers st' = [mkTimer (nextTimer st) (now st + 2000) CbPollStatus] /\
   pollingRef st' = Some (nextTimer st)) /\
  (Z.of_N d < 2000 -> st2 = step (Tick d) st') /\
  (2000 <= Z.of_N d -> 60000 < now st + Z.of_N d - startTimeRef st ->
     screens st2 = [scan_error] /\ toasts st2 = toasts st ++ [msg_timeout] /\
     queries st2 = queries st /\ quiescent st2) /\
  (2000 <= Z.of_N d -> now st + Z.of_N d - startTimeRef st <= 60000 ->
     screens st2 = [] /\ queries st2 = S (queries st) /\
     inflight st2 = Some (now st + Z.of_N d - startTimeRef st)).
Proof.
  intros Hr Hm Hi Hf. apply Inv_reachable in Hr.
  destruct Hr; simpl in Hm, Hi; try discriminate. subst m.
  unf_cbv. rewrite Hf. simpl. rewrite Nat.eqb_refl. simpl.
  split; [now auto|]. split; [| split].
  - intros Hd. replace (t + 2000 <=? t + Z.of_N d) with false
      by (symmetry; apply Z.leb_gt; lia). reflexivity.
  - intros Hd Hlate.
    replace (t + 2000 <=? t + Z.of_N d) with true
      by (symmetry; apply Z.leb_le; lia).
    simpl.
    apply Z.ltb_lt in Hlate. rewrite Hlate. simpl.
    unfold quiescent; simpl. now auto.
  - intros Hd Hin.
    replace (t + 2000 <=? t + Z.of_N d) with true
      by (symmetry; apply Z.leb_le; lia).
    simpl.
    replace (60000 <? t + Z.of_N d - start) with false
      by (symmetry; apply Z.ltb_ge; lia).
    simpl. now auto.
Qed.

Lemma transient_error_retries_witness :
  let st' := step (Settle (getReportStatus NetworkError)) (mount 0) in
  screens st' = screens (mount 0) /\
  timers st' = [mkTimer (nextTimer (mount 0)) (now (mount 0) + 2000) CbPollStatus].
Proof.
  destruct (transient_error_retries (mount 0) 0 (mkApiError None) 2000
              (reach_mount 0) eq_refl eq_refl eq_refl) as [(H1 & _ & _ & _ & _ & H6 & _) _].
  split; [exact H1 | exact H6].
Defined.



End PollLoopFacts.

(** * Properties of the session manager *)

Module SessionFacts.
Import Session.

Lemma keys_differ : tab_key <> screen_key.
Proof. discriminate. Qed.

Lemma persist_screen (a : App) (ls : gmap string string) :
  persist a ls !! screen_key =
  if isLoggedIn a && negb (auth_only (currentScreen a))
  then Some (currentScreen a) else ls !! screen_key.
Proof.
  unfold persist.
  destruct (isLoggedIn a && truthy (activeTab a));
    [rewrite lookup_insert_ne by apply keys_differ|];
    destruct (isLoggedIn a && negb (auth_only (currentScreen a)));
    now rewrite ?lookup_insert_eq.
Qed.

Lemma persist_tab (a : App) (ls : gmap string string) :
  persist a ls !! tab_key =
  if isLoggedIn a && truthy (activeTab a)
  then Some (activeTab a) else ls !! tab_key.
Proof.
  unfold persist.
  destruct (isLoggedIn a && truthy (activeTab a));
    [now rewrite lookup_insert_eq|].
  destruct (isLoggedIn a && negb (auth_only (currentScreen a))); [| reflexivity].
  apply lookup_insert_ne. intros H; symmetry in H. now apply keys_differ.
Qed.

Lemma persist_logged_out (a : App) (ls : gmap string string) :
  isLoggedIn a = false -> persist a ls = ls.
Proof. intros H. unfold persist. now rewrite H. Qed.

(** *** What the handlers do with the storage they read *)

(** The restore step sets the screen and the tab the storage holds at that
    moment, and falls back to the home screen when the saved screen is
    missing, empty or auth-only. *)
Lemma restore_spec (reset_tab : bool) (ls : gmap string string) (a : App) :
  (forall sc, ls !! screen_key = Some sc -> truthy sc = true ->
     auth_only sc = false ->
     currentScreen (restore reset_tab ls a) = sc /\
     (forall tb, ls !! tab_key = Some tb -> truthy tb = true ->
        activeTab (restore reset_tab ls a) = tb)) /\
  (forall sc, ls !! screen_key = Some sc -> auth_only sc = true ->
     currentScreen (restore reset_tab ls a) = screen_name home) /\
  (ls !! screen_key = None ->
     currentScreen (restore reset_tab ls a) = screen_name home).
Proof.
  unfold restore. repeat split.
  - rewrite H, H0, H1. simpl. destruct (ls !! tab_key) as [tb|]; [| reflexivity].
    destruct (truthy tb); reflexivity.
  - intros tb Ht Htt. rewrite H, H0, H1, Ht, Htt. reflexivity.
  - intros sc Hs Ha. rewrite Hs, Ha, andb_false_r. simpl.
    destruct reset_tab; reflexivity.
  - intros Hs. rewrite Hs. destruct reset_tab; reflexivity.
Qed.

Lemma no_session_onboarding (c : AuthCheck) (a : App) :
  valid_session c = false ->
  currentScreen (initializeAuth_check c a) = screen_name onboarding /\
  isLoggedIn (initializeAuth_check c a) = false.
Proof. intros H. unfold initializeAuth_check. rewrite H. now split. Qed.

Lemma signedOut_spec (a : App) (ls : gmap string string) :
  currentScreen (fst (signedOut a ls)) = screen_name onboarding /\
  isLoggedIn (fst (signedOut a ls)) = false /\
  snd (signedOut a ls) !! screen_key = None /\
  snd (signedOut a ls) !! tab_key = None /\
  persist (fst (signedOut a ls)) (snd (signedOut a ls)) = snd (signedOut a ls).
Proof.
  unfold signedOut; simpl. repeat split.
  - rewrite lookup_delete_ne by apply keys_differ. apply lookup_delete_eq.
  - apply lookup_delete_eq.
Qed.

(** *** Application start *)

(** With a valid session the start-up restores the saved screen, whenever
    the first commit happens. *)
Lemma app_start_screen (profile commit_first : bool) (ls : gmap string string)
    (sc : string) :
  ls !! screen_key = Some sc -> truthy sc = true -> auth_only sc = false ->
  currentScreen (fst (app_start (AuthResult true true) profile commit_first ls)) = sc.
Proof.
  intros Hs Ht Ha. unfold app_start; simpl.
  unfold initializeAuth_resume; simpl.
  apply restore_spec; try assumption.
  destruct commit_first; [rewrite persist_screen; simpl|];
    now rewrite persist_logged_out by reflexivity.
Qed.

(** A restore that reads the storage after the persistence effect has run
    on the same state cannot change the tab: the saved tab it finds is the
    current one. *)
Lemma restore_after_commit_keeps_tab (a : App) (ls : gmap string string) :
  isLoggedIn a = true -> truthy (activeTab a) = true ->
  activeTab (restore false (persist a ls) a) = activeTab a.
Proof.
  intros Hl Ht. unfold restore. rewrite persist_tab, Hl, Ht. simpl.
  destruct (persist a ls !! screen_key) as [sc|]; [| reflexivity].
  destruct (truthy sc && negb (auth_only sc)); [| reflexivity].
  rewrite Ht. destruct a; reflexivity.
Qed.

(** Hence the tab the start-up ends on is 'home', whatever tab was saved. *)
Lemma app_start_tab (c : AuthCheck) (profile : bool) (ls : gmap string string) :
  activeTab (fst (app_start c profile true ls)) = "home"%string.
Proof.
  unfold app_start, initializeAuth_check.
  destruct (valid_session c); [| reflexivity].
  unfold initializeAuth_resume; simpl.
  destruct profile.
  - change (activeTab (restore false
              (persist (setIsLoggedIn true initialApp) (persist initialApp ls))
              (setUser true (setIsLoggedIn true initialApp))) = "home"%string).
    unfold restore. rewrite persist_tab; simpl.
    destruct (persist _ _ !! screen_key) as [sc|]; [| reflexivity].
    destruct (truthy sc && negb (auth_only sc)); reflexivity.
  - apply (restore_after_commit_keeps_tab (setIsLoggedIn true initialApp));
      reflexivity.
Qed.

(** Were the storage read before that commit, the saved tab would be
    restored: this is what the handler is written to do. *)
Lemma app_start_tab_without_commit (profile : bool) (ls : gmap string string)
    (sc tb : string) :
  ls !! screen_key = Some sc -> truthy sc = true -> auth_only sc = false ->
  ls !! tab_key = Some tb -> truthy tb = true ->
  activeTab (fst (app_start (AuthResult true true) profile false ls)) = tb.
Proof.
  intros Hs Ht Ha Htb Htt. unfold app_start; simpl.
  unfold initializeAuth_resume; simpl.
  rewrite persist_logged_out by reflexivity.
  eapply restore_spec; eassumption.
Qed.

(** C9.  The storage holds screen 'history' and tab 'history', the session
    is valid.  The start-up restores the screen, and leaves the tab at
    'home': the persistence effect of the commit of [setIsLoggedIn(true)]
    has written 'home' under the tab key before [initializeAuth] reads
    it. *)
Theorem startup_overwrites_saved_tab :
  let w := app_start (AuthResult true true) true true saved_history in
  saved_history !! screen_key = Some "history"%string /\
  saved_history !! tab_key = Some "history"%string /\
  currentScreen (fst w) = "history"%string /\
  activeTab (fst w) = "home"%string /\
  snd w !! tab_key = Some "home"%string.
Proof.
  vm_compute. repeat split; reflexivity.
Qed.

(** *** The saved screen *)

Lemma clean_act (x : Action) (w : App * gmap string string) :
  clean (snd w) -> clean (snd (act x w)).
Proof.
  destruct w as [a ls]; simpl. intros Hc.
  destruct x as [a' | | ]; simpl; [assumption | |].
  - intros v. rewrite persist_screen.
    destruct (isLoggedIn a && negb (auth_only (currentScreen a))) eqn:Hg.
    + intros [= <-]. apply andb_true_iff in Hg as [_ Hg].
      now apply negb_true_iff in Hg.
    + apply Hc.
  - intros v. rewrite lookup_delete_ne by apply keys_differ.
    rewrite lookup_delete_eq. discriminate.
Qed.

Lemma clean_acts (xs : list Action) : forall w, clean (snd w) -> clean (snd (acts xs w)).
Proof.
  induction xs as [| x xs IH]; simpl; intros w Hc; [assumption|].
  apply IH. now apply clean_act.
Qed.

(** C10.  The persistence effect is the only writer of the screen key.  It
    leaves the storage alone when the user is not logged in; when it does
    change the value under the key, the user is logged in and the value
    written is the current screen, which is none of splash, onboarding,
    login, signup.  Hence a storage whose saved screen is not auth-only
    (an empty one, for instance) stays so under any state changes, effect
    runs and sign-outs. *)
Theorem saved_screen_never_auth_only (a : App) (ls : gmap string string)
    (xs : list Action) (w : App * gmap string string) :
  (isLoggedIn a = false -> persist a ls = ls) /\
  (persist a ls !! screen_key <> ls !! screen_key ->
     isLoggedIn a = true /\ auth_only (currentScreen a) = false /\
     persist a ls !! screen_key = Some (currentScreen a)) /\
  (clean (snd w) -> clean (snd (acts xs w))) /\
  clean ∅.
Proof.
  repeat split.
  - apply persist_logged_out.
  - rewrite persist_screen in H.
    destruct (isLoggedIn a); [reflexivity | simpl in H; congruence].
  - rewrite persist_screen in H.
    destruct (isLoggedIn a), (auth_only (currentScreen a)); simpl in H; congruence.
  - rewrite persist_screen in *.
    destruct (isLoggedIn a), (auth_only (currentScreen a)); simpl in *; congruence.
  - apply clean_acts.
  - intros v. rewrite lookup_empty. discriminate.
Qed.

End SessionFacts.

(** * More properties of the poll loop *)

Module ScanningEffectFacts.
Import Api PollLoop PollLoopFacts ScanningEffect.

Lemma filter_twice {A} (f : A -> bool) (l : list A) :
  List.filter f (List.filter f l) = List.filter f l.
Proof.
  induction l as [| x l IH]; simpl; [reflexivity|].
  destruct (f x) eqn:Hx; simpl; [rewrite Hx|]; now rewrite ?IH.
Qed.

(** An unmounted effect issues no query and sets no progress, whatever
    happens; it stays unmounted; and only a fatal settlement makes it
    show a toast or navigate. *)
Lemma unmounted_step (ev : Event) (st : Loop) :
  isMounted st = false ->
  isMounted (step ev st) = false /\
  queries (step ev st) = queries st /\
  progress (step ev st) = progress st /\
  (fatal_settle ev = false ->
     screens (step ev st) = screens st /\ toasts (step ev st) = toasts st).
Proof.
  destruct st as [t m start p ref tm nt fl q ts scr]; simpl. intros ->.
  destruct ev as [d | r | i | ]; unf.
  - now auto.
  - destruct fl; [| now auto].
    destruct r as [body | err]; simpl; [now auto|].
    destruct (is_fatal err); simpl; [| now auto].
    repeat split; discriminate.
  - destruct (List.find _ tm) as [tmr|]; [| now auto].
    destruct (due tmr <=? t); [| now auto].
    destruct (cb tmr); simpl; now auto.
  - destruct ref as [r|]; [destruct (Nat.eqb r 0)|]; simpl; now auto.
Qed.

Lemma unmounted_steps (evs : list Event) : forall st,
  isMounted st = false ->
  isMounted (steps evs st) = false /\
  queries (steps evs st) = queries st /\
  progress (steps evs st) = progress st /\
  (forallb (fun ev => negb (fatal_settle ev)) evs = true ->
     screens (steps evs st) = screens st /\ toasts (steps evs st) = toasts st).
Proof.
  induction evs as [| ev evs IH]; simpl; intros st Hm; [now auto|].
  destruct (unmounted_step ev st Hm) as (Hm' & Hq & Hp & Hs).
  destruct (IH _ Hm') as (H1 & H2 & H3 & H4).
  split; [assumption|]. split; [congruence|]. split; [congruence|].
  intros Hf. apply andb_true_iff in Hf as [Hf1 Hf2].
  apply negb_true_iff in Hf1. destruct (Hs Hf1), (H4 Hf2).
  split; congruence.
Qed.

Lemma cleanup_unmounts (st : Loop) : isMounted (step Unmount st) = false.
Proof.
  destruct st as [t m start p ref tm nt fl q ts scr]; unf.
  destruct ref as [r|]; [destruct (Nat.eqb r 0)|]; reflexivity.
Qed.

(** X1.  Once the effect's cleanup has run, the loop stays unmounted
    whatever happens next (clock ticks, timers firing, a query settling, a
    second cleanup): no further query is issued and the progress keeps its
    value; as long as no settlement is a fatal one (404 or 400) no screen
    is set and no toast is shown; and running the cleanup again changes
    nothing. *)
Theorem after_cleanup_nothing_polls (st : Loop) (evs : list Event) :
  let c := step Unmount st in
  isMounted (steps evs c) = false /\
  queries (steps evs c) = queries st /\
  progress (steps evs c) = progress st /\
  (forallb (fun ev => negb (fatal_settle ev)) evs = true ->
     screens (steps evs c) = screens st /\ toasts (steps evs c) = toasts st) /\
  step Unmount c = c.
Proof.
  intros c.
  assert (Hc : queries c = queries st /\ progress c = progress st /\
               screens c = screens st /\ toasts c = toasts st /\
               step Unmount c = c).
  { unfold c. destruct st as [t m start p ref tm nt fl q ts scr]; unf.
    destruct ref as [r|]; simpl; [| now auto].
    destruct (Nat.eqb r 0) eqn:Hr; simpl; rewrite ?Hr; simpl;
      rewrite ?filter_twice; now auto. }
  destruct Hc as (Hq & Hp & Hs & Ht & Hi).
  destruct (unmounted_steps evs c (cleanup_unmounts st)) as (H1 & H2 & H3 & H4).
  split; [assumption|]. split; [congruence|]. split; [congruence|].
  split; [| assumption].
  intros Hf. destruct (H4 Hf). split; congruence.
Qed.


(** X2.  A mounted loop that receives an answer whose status, lower-cased,
    is none of 'processing', 'completed', 'failed' leaves progress, screen
    and toasts as they are, issues no query at once, and sets exactly one
    new timeout, 2000 ms from now, that polls again and is the one
    [pollingRef] holds. *)
Theorem unknown_status_polls_again (st : Loop) (e : Z) (body : ReportStatus)
    (s : string) :
  isMounted st = true -> inflight st = Some e ->
  status body = Some s -> known_status (toLowerCase s) = false ->
  let st' := step (Settle (Fulfilled body)) st in
  progress st' = progress st /\ screens st' = screens st /\
  toasts st' = toasts st /\ queries st' = queries st /\
  inflight st' = None /\
  timers st' = timers st ++ [mkTimer (nextTimer st) (now st + 2000) CbPollStatus] /\
  pollingRef st' = Some (nextTimer st).
Proof.
  destruct st as [t m start p ref tm nt fl q ts scr]; simpl.
  intros -> -> Hs Hk. unfold known_status in Hk.
  apply orb_false_iff in Hk as [Hk Hf]. apply orb_false_iff in Hk as [Hp Hc].
  unf_cbv. rewrite Hs, Hp, Hc, Hf. simpl. now auto.
Qed.

Lemma unknown_status_polls_again_witness :
  let st' := step (Settle (Fulfilled (mkReportStatus (Some "QUEUED"%string) None))) (mount 0) in
  progress st' = progress (mount 0) /\ screens st' = screens (mount 0).
Proof.
  destruct (unknown_status_polls_again (mount 0) 0
              (mkReportStatus (Some "QUEUED"%string) None) "QUEUED"%string
              eq_refl eq_refl eq_refl eq_refl) as (H1 & H2 & _).
  split; [exact H1 | exact H2].
Defined.

(** X3.  Whatever the transport returns that is neither a 404 nor a 400
    nor a JSON body with a status (no session, a network failure, any
    other HTTP error, a 204, a body that is not JSON, a JSON without
    status), and any answer whose body is the JSON text null, makes a
    mounted loop poll again after 2000 ms, with progress, screen and
    toasts untouched. *)
Theorem unusable_answer_is_retried (st : Loop) (e : Z) (f : FetchResult) :
  isMounted st = true -> inflight st = Some e -> retried f = true ->
  let st' := step (Settle (getReportStatus f)) st in
  progress st' = progress st /\ screens st' = screens st /\
  toasts st' = toasts st /\ queries st' = queries st /\
  inflight st' = None /\
  timers st' = timers st ++ [mkTimer (nextTimer st) (now st + 2000) CbPollStatus].
Proof.
  destruct st as [t m start p ref tm nt fl q ts scr]; simpl.
  intros -> -> Hr.
  assert (Hcase : (exists err, getReportStatus f = Rejected err /\ is_fatal err = false)
                  \/ exists msg, getReportStatus f = Fulfilled (mkReportStatus None msg)).
  { destruct f as [| | code json | code]; simpl in *.
    - left. now exists (mkApiError None).
    - left. now exists (mkApiError None).
    - unfold getReportStatus, apiFetch.
      destruct (negb (response_ok code)).
      + left. exists (mkApiError (Some code)). split; [reflexivity|].
        unfold is_fatal; simpl. now apply negb_true_iff in Hr.
      + destruct (code =? 204); [right; now exists None|].
        destruct json as [[[s|] msg]|]; try discriminate.
        * right. now exists msg.
        * left. now exists (mkApiError None).
    - unfold getReportStatus, apiFetch.
      destruct (negb (response_ok code)).
      + left. now exists (mkApiError None).
      + right. now exists None. }
  destruct Hcase as [(err & -> & Hf) | (msg & ->)]; unf_cbv; rewrite ?Hf; simpl; now auto.
Qed.

Lemma unusable_answer_is_retried_witness :
  let st' := step (Settle (getReportStatus (Response 204 None))) (mount 0) in
  screens st' = screens (mount 0) /\
  timers st' = timers (mount 0) ++ [mkTimer (nextTimer (mount 0)) (now (mount 0) + 2000) CbPollStatus].
Proof.
  destruct (unusable_answer_is_retried (mount 0) 0 (Response 204 None)
              eq_refl eq_refl eq_refl) as (_ & H2 & _ & _ & _ & H6).
  split; [exact H2 | exact H6].
Defined.

(** X5.  In a reachable, mounted loop a 'completed' answer sets the
    progress to 100, issues no query, and leaves one timeout due 500 ms
    later.  Fired before it is due the timeout does nothing; fired once
    due it sets the screen 'report-result', and the loop is then
    quiescent. *)
Theorem completed_navigates_after_delay (st : Loop) (e : Z) (body : ReportStatus)
    (s : string) (d : N) :
  reachable st -> isMounted st = true -> inflight st = Some e ->
  status body = Some s -> toLowerCase s = "completed"%string ->
  let st' := step (Settle (Fulfilled body)) st in
  let st2 := step (Fire (nextTimer st)) (step (Tick d) st') in
  (progress st' = 100 /\ screens st' = [] /\ queries st' = queries st /\
   inflight st' = None /\
   timers st' = [mkTimer (nextTimer st) (now st + 500) (CbNavigate report_result)]) /\
  (Z.of_N d < 500 -> st2 = step (Tick d) st') /\
  (500 <= Z.of_N d ->
     screens st2 = [report_result] /\ progress st2 = 100 /\
     queries st2 = queries st /\ quiescent st2).
Proof.
  intros Hr Hm Hi Hs Hc. apply Inv_reachable in Hr.
  destruct Hr; simpl in Hm, Hi; try discriminate. subst m.
  unf_cbv. rewrite Hs, Hc. simpl. rewrite Nat.eqb_refl. simpl.
  split; [now auto|]. split.
  - intros Hd. replace (t + 500 <=? t + Z.of_N d) with false
      by (symmetry; apply Z.leb_gt; lia). reflexivity.
  - intros Hd. replace (t + 500 <=? t + Z.of_N d) with true
      by (symmetry; apply Z.leb_le; lia).
    simpl. unfold quiescent; simpl. now auto.
Qed.

Lemma completed_navigates_after_delay_witness :
  screens (step (Fire (nextTimer (mount 0)))
             (step (Tick 500) (step (Settle (Fulfilled completed_body)) (mount 0))))
  = [report_result].
Proof.
  destruct (completed_navigates_after_delay (mount 0) 0 completed_body
              "completed"%string 500 (reach_mount 0) eq_refl eq_refl eq_refl eq_refl)
    as (_ & _ & H).
  destruct (H ltac:(lia)) as [H1 _]. exact H1.
Defined.

Lemma unmounted_idle_steps (evs : list Event) : forall st,
  isMounted st = false -> inflight st = None ->
  screens (steps evs st) = screens st /\ toasts (steps evs st) = toasts st /\
  queries (steps evs st) = queries st /\ progress (steps evs st) = progress st.
Proof.
  induction evs as [| ev evs IH]; simpl; intros st Hm Hi; [now auto|].
  assert (H : isMounted (step ev st) = false /\ inflight (step ev st) = None /\
              screens (step ev st) = screens st /\ toasts (step ev st) = toasts st /\
              queries (step ev st) = queries st /\ progress (step ev st) = progress st).
  { destruct st as [t m start p ref tm nt fl q ts scr]; simpl in *. subst m fl.
    destruct ev as [d | r | i | ]; unf.
    - now auto.
    - now auto.
    - destruct (List.find _ tm) as [tmr|]; [| now auto].
      destruct (due tmr <=? t); [| now auto].
      destruct (cb tmr); simpl; now auto.
    - destruct ref as [r|]; [destruct (Nat.eqb r 0)|]; simpl; now auto. }
  destruct H as (Hm' & Hi' & H1 & H2 & H3 & H4).
  destruct (IH _ Hm' Hi') as (? & ? & ? & ?).
  repeat split; congruence.
Qed.

(** X6.  After a 'completed' or 'failed' answer a timeout of 500 ms holds
    the navigation.  If the component unmounts before it runs, no screen
    is ever set and no query is issued, whatever happens afterwards: the
    cleanup does not clear this timeout, its callback finds [isMounted]
    false. *)
Theorem unmount_cancels_delayed_navigation (st : Loop) (e : Z)
    (body : ReportStatus) (s : string) (d : N) (evs : list Event) :
  isMounted st = true -> inflight st = Some e -> status body = Some s ->
  toLowerCase s = "completed"%string \/ toLowerCase s = "failed"%string ->
  let st' := step (Settle (Fulfilled body)) st in
  let c := step Unmount (step (Tick d) st') in
  (exists tm, In tm (timers st') /\ tid tm = nextTimer st /\
              due tm = now st + 500 /\ exists scr, cb tm = CbNavigate scr) /\
  screens (steps evs c) = screens st /\
  queries (steps evs c) = queries st /\
  toasts (steps evs c) = toasts st'.
Proof.
  intros Hm Hi Hs Hc st' c.
  assert (Hst : inflight st' = None /\ screens st' = screens st /\
                queries st' = queries st /\
                exists tm, In tm (timers st') /\ tid tm = nextTimer st /\
                           due tm = now st + 500 /\ exists scr, cb tm = CbNavigate scr).
  { unfold st'. destruct st as [t m start p ref tm nt fl q ts scr]; simpl in *.
    subst m fl. unf_cbv. rewrite Hs.
    destruct Hc as [Hc | Hc]; rewrite Hc; simpl; repeat split;
      eexists; (split; [apply in_or_app; right; left; reflexivity|]); simpl; eauto. }
  destruct Hst as (Hi' & Hscr & Hq & Htm).
  assert (Hcm : isMounted c = false) by apply cleanup_unmounts.
  assert (Hc' : inflight c = None /\ screens c = screens st' /\
                queries c = queries st' /\ toasts c = toasts st').
  { unfold c. destruct st' as [t m start p ref tm nt fl q ts scr]; simpl in *.
    subst fl. unf. destruct ref as [r|]; [destruct (Nat.eqb r 0)|]; simpl; now auto. }
  destruct Hc' as (Hci & Hcs & Hcq & Hct).
  destruct (unmounted_idle_steps evs c Hcm Hci) as (H1 & H2 & H3 & _).
  split; [exact Htm|]. repeat split; congruence.
Qed.

Lemma unmount_cancels_delayed_navigation_witness :
  screens (steps [Tick 1000; Fire 1%nat]
             (step Unmount (step (Tick 100)
                (step (Settle (Fulfilled completed_body)) (mount 0)))))
  = screens (mount 0).
Proof.
  destruct (unmount_cancels_delayed_navigation (mount 0) 0 completed_body
              "completed"%string 100 [Tick 1000; Fire 1%nat]
              eq_refl eq_refl eq_refl (or_introl eq_refl)) as (_ & H & _).
  exact H.
Defined.

Lemma step_clock (ev : Event) (st : Loop) :
  startTimeRef (step ev st) = startTimeRef st /\ now st <= now (step ev st).
Proof.
  destruct st as [t m start p ref tm nt fl q ts scr].
  destruct ev as [d | r | i | ]; unf.
  - split; [reflexivity | lia].
  - destruct fl; simpl; [| split; [reflexivity | lia]].
    destruct r as [body | err]; simpl; repeat break_if; simpl; split;
      try reflexivity; lia.
  - destruct (List.find _ tm) as [tmr|]; simpl; [| split; [reflexivity | lia]].
    destruct (due tmr <=? t); simpl; [| split; [reflexivity | lia]].
    destruct (cb tmr); simpl; repeat break_if; simpl; split; try reflexivity; lia.
  - destruct ref as [r|]; [destruct (Nat.eqb r 0)|]; simpl; split;
      try reflexivity; lia.
Qed.

Lemma clock_not_behind (st : Loop) : reachable st -> startTimeRef st <= now st.
Proof.
  induction 1 as [t0 | st ev Hr IH].
  - unfold mount, pollStatus, initial, issue_query; simpl.
    replace (t0 - t0) with 0 by lia. simpl. lia.
  - destruct (step_clock ev st) as [Hs Hn]. lia.
Qed.

(** X7.  In every reachable state of the loop there is at most one pending
    timeout, and none while a query is in flight; at most 31 queries have
    been issued; the clock is not behind the start time; and the elapsed
    time a query in flight was issued at is at most 60000 ms, at least
    2000 ms for each earlier query, and not after the present. *)
Theorem one_activity_at_a_time (st : Loop) :
  reachable st ->
  (length (timers st) <= 1)%nat /\
  (inflight st <> None -> timers st = []) /\
  (queries st <= 31)%nat /\
  startTimeRef st <= now st /\
  (forall e, inflight st = Some e ->
     2000 * (Z.of_nat (queries st) - 1) <= e /\ e <= 60000 /\
     e <= now st - startTimeRef st).
Proof.
  intros Hr. pose proof (clock_not_behind st Hr) as Hclock.
  apply Inv_reachable in Hr.
  split; [| split; [| split; [| split; [exact Hclock|]]]].
  - destruct Hr; simpl; lia.
  - destruct Hr; simpl; intros Hi; congruence.
  - destruct Hr; simpl; lia.
  - destruct Hr; simpl; intros e' [= <-] || (intros e' He; discriminate); lia.
Qed.


Lemma progress_shape_step (ev : Event) (st : Loop) :
  Inv st -> progress_shape st -> progress_shape (step ev st).
Proof.
  unfold progress_shape.
  intros HI HP. destruct HI; destruct ev as [d0 | r | i | ]; unf;
    try (destruct HP as [HP | (HP & Hi & Ht)]; [left; exact HP | right; now auto]).
  - (* a query in flight settles *)
    pose proof (shownProgress_bounds e) as Hb.
    destruct HP as [HP | (_ & Hi & _)]; [| discriminate].
    destruct r as [body | err]; simpl.
    + destruct m; simpl; [| now left].
      destruct body as [[s|] msg]; simpl; [| now left].
      destruct (String.eqb (toLowerCase s) "processing"); simpl; [left; right; lia|].
      destruct (String.eqb (toLowerCase s) "completed"); simpl.
      * right. repeat split. repeat constructor.
      * destruct (String.eqb (toLowerCase s) "failed"); simpl; now left.
    + destruct (is_fatal err); simpl; [now left|].
      destruct m; simpl; now left.
  - destruct ref as [r|]; [destruct (Nat.eqb r 0)|]; simpl;
      (destruct HP as [HP | (HP & Hi & Ht)]; [left; exact HP | right; now auto]).
  - (* the poll timeout *)
    destruct HP as [HP | (_ & _ & Ht)]; [| inversion Ht; discriminate].
    destruct (Nat.eqb id i); simpl; [| now left].
    destruct (d <=? t); simpl; [| now left].
    destruct (60000 <? t - start); simpl; now left.
  - destruct id as [|id']; [congruence|]. simpl. rewrite Nat.eqb_refl. simpl.
    destruct HP as [HP | (_ & _ & Ht)]; [now left | inversion Ht; discriminate].
  - (* the navigation timeout *)
    destruct (Nat.eqb id i); simpl;
      [destruct (d <=? t); simpl; [destruct m; simpl|]|];
      (destruct HP as [HP | (HP & Hi & Ht)];
       [left; exact HP | right; repeat split; auto]).
  - destruct HP as [HP | (HP & Hi & Ht)];
      [destruct ref as [r|]; [destruct (Nat.eqb r 0)|]; simpl; now left|].
    destruct ref as [r|]; [destruct (Nat.eqb r 0)|]; simpl; right;
      repeat split; auto.
    destruct (Nat.eqb id r); simpl; auto.
  - destruct ref as [r|]; [destruct (Nat.eqb r 0)|]; simpl;
      (destruct HP as [HP | (HP & Hi & Ht)]; [left; exact HP | right; now auto]).
Qed.

(** X8.  In every reachable state the progress is 0, or between 10 and 90,
    or 100; when it is 100 no query is in flight and every pending timeout
    is the navigation to 'report-result'. *)
Theorem progress_is_0_10_to_90_or_100 (st : Loop) :
  reachable st ->
  (progress st = 0 \/ 10 <= progress st <= 90 \/ progress st = 100) /\
  (progress st = 100 ->
     inflight st = None /\
     forall t, In t (timers st) -> cb t = CbNavigate report_result).
Proof.
  intros Hr.
  assert (HP : progress_shape st).
  { induction Hr as [t0 | st ev Hr IH].
    - left. left. unfold mount, pollStatus, initial, issue_query; simpl.
      replace (t0 - t0) with 0 by lia. reflexivity.
    - apply progress_shape_step; [now apply Inv_reachable | exact IH]. }
  destruct HP as [[H0 | H1] | (H100 & Hi & Ht)].
  - split; [now left | intros; lia].
  - split; [right; now left | intros; lia].
  - split; [right; now right|]. intros _. split; [exact Hi|].
    intros t Hin. rewrite List.Forall_forall in Ht. now apply Ht.
Qed.

Lemma progress_is_0_10_to_90_or_100_witness :
  progress polled_at_14s = 0 \/ 10 <= progress polled_at_14s <= 90
  \/ progress polled_at_14s = 100.
Proof.
  assert (Hr : reachable polled_at_14s).
  { unfold polled_at_14s. apply reachable_steps. constructor. }
  exact (proj1 (progress_is_0_10_to_90_or_100 polled_at_14s Hr)).
Defined.

(** X9.  Without a report id (null or empty) the effect issues no query
    and sets one timeout of 2000 ms.  Fired before it is due it does
    nothing; fired once due it sets the screen 'scan' and nothing is left
    pending.  If the effect's cleanup runs first, the timeout is cleared
    and no screen is ever set. *)
Theorem missing_report_id_redirects_to_scan (currentReportId : option string)
    (t0 : Z) (d : N) :
  no_report_id currentReportId = true ->
  let st := effect currentReportId t0 in
  let id := fst (redirect_effect t0) in
  let cleaned := effect_cleanup currentReportId t0 (step (Tick d) st) in
  (queries st = 0%nat /\ inflight st = None /\ screens st = []) /\
  (Z.of_N d < 2000 -> step (Fire id) (step (Tick d) st) = step (Tick d) st) /\
  (2000 <= Z.of_N d ->
     screens (step (Fire id) (step (Tick d) st)) = [scan] /\
     queries (step (Fire id) (step (Tick d) st)) = 0%nat /\
     quiescent (step (Fire id) (step (Tick d) st))) /\
  (quiescent cleaned /\ screens cleaned = [] /\
   forall evs, screens (steps evs cleaned) = [] /\ queries (steps evs cleaned) = 0%nat).
Proof.
  intros Hn. cbv zeta.
  unfold effect, effect_cleanup. rewrite Hn.
  unfold redirect_effect, initial. unf_cbv.
  split; [now auto|]. split; [| split].
  - intros Hd. replace (t0 + 2000 <=? t0 + Z.of_N d) with false
      by (symmetry; apply Z.leb_gt; lia). reflexivity.
  - intros Hd. replace (t0 + 2000 <=? t0 + Z.of_N d) with true
      by (symmetry; apply Z.leb_le; lia).
    simpl. unfold quiescent; simpl. now auto.
  - assert (Hq : quiescent (mkLoop (t0 + Z.of_N d) true t0 0 None [] 2 None 0 [] []))
      by (split; reflexivity).
    split; [exact Hq|]. split; [reflexivity|].
    intros evs. destruct (quiescent_steps evs _ Hq) as (_ & H1 & H2 & _).
    split; [exact H1 | exact H2].
Qed.

Lemma missing_report_id_redirects_to_scan_witness :
  screens (step (Fire 1%nat) (step (Tick 2000) (effect (Some ""%string) 0))) = [scan].
Proof.
  destruct (missing_report_id_redirects_to_scan (Some ""%string) 0 2000 eq_refl)
    as (_ & _ & H & _).
  destruct (H ltac:(lia)) as [H1 _]. exact H1.
Defined.


Lemma one_activity_at_a_time_witness :
  (length (timers polled_at_14s) <= 1)%nat /\ (queries polled_at_14s <= 31)%nat.
Proof.
  assert (Hr : reachable polled_at_14s).
  { unfold polled_at_14s. apply reachable_steps. constructor. }
  destruct (one_activity_at_a_time polled_at_14s Hr) as (H1 & _ & H3 & _).
  split; [exact H1 | exact H3].
Defined.


End ScanningEffectFacts.

(** * Properties of the REST client *)

Module ApiClientFacts.
Import ApiClient.

(** X10.  The headers [apiFetch] sends: Authorization is 'Bearer '
    followed by the session's token, also when the caller passed one; a
    non-empty Content-Type of the caller is kept; a missing or empty one
    becomes 'application/json' unless the body is a FormData, in which
    case it is left as it is; every other header of the caller is passed
    unchanged. *)
Theorem apiFetch_headers_spec (options_headers : gmap string string)
    (body_is_FormData : bool) (access_token : string) :
  let headers := apiFetch_headers options_headers body_is_FormData access_token in
  headers !! "Authorization"%string = Some (String.append "Bearer " access_token) /\
  (forall k, k <> "Authorization"%string -> k <> "Content-Type"%string ->
     headers !! k = options_headers !! k) /\
  (forall c, options_headers !! "Content-Type"%string = Some c -> c <> ""%string ->
     headers !! "Content-Type"%string = Some c) /\
  (falsy (options_headers !! "Content-Type"%string) = true ->
     headers !! "Content-Type"%string =
       if body_is_FormData then options_headers !! "Content-Type"%string
       else Some "application/json"%string).
Proof.
  unfold apiFetch_headers. cbv zeta.
  rewrite (lookup_insert_ne _ "Authorization"%string "Content-Type"%string)
    by discriminate.
  repeat split.
  - destruct (negb body_is_FormData && _).
    + rewrite lookup_insert_ne by discriminate. apply lookup_insert_eq.
    + apply lookup_insert_eq.
  - intros k Ha Hc. destruct (negb body_is_FormData && _).
    + rewrite !lookup_insert_ne by congruence. reflexivity.
    + rewrite lookup_insert_ne by congruence. reflexivity.
  - intros c Hc Hne. rewrite Hc. simpl.
    destruct (String.eqb_spec c ""); [contradiction|].
    rewrite andb_false_r. rewrite lookup_insert_ne by discriminate. exact Hc.
  - intros Hf. rewrite Hf, andb_true_r.
    destruct body_is_FormData; simpl.
    + apply lookup_insert_ne. discriminate.
    + apply lookup_insert_eq.
Qed.

Section QueryFacts.
Variable toString : Z -> string.

Lemma keys_append_string k v q :
  map fst (append_string k v q) = map fst q ++ (if falsy v then [] else [k]).
Proof.
  unfold append_string, falsy. destruct v as [s|]; [| now rewrite app_nil_r].
  destruct (String.eqb s ""); [now rewrite app_nil_r|].
  now rewrite map_app.
Qed.

Lemma keys_append_number k v q :
  map fst (append_number toString k v q) =
  map fst q ++ (match v with Some n => if n =? 0 then [] else [k] | None => [] end).
Proof.
  unfold append_number. destruct v as [n|]; [| now rewrite app_nil_r].
  destruct (n =? 0); [now rewrite app_nil_r|].
  now rewrite map_app.
Qed.

Lemma sublist_option (b : bool) (k : string) : sublist (if b then [] else [k]) [k].
Proof. destruct b; [apply sublist_nil_l | reflexivity]. Qed.

Lemma In_append_string k v q x :
  In x (append_string k v q) ->
  In x q \/ (exists s, v = Some s /\ s <> ""%string /\ x = (k, s)).
Proof.
  unfold append_string. destruct v as [s|]; [| now left].
  destruct (String.eqb_spec s ""); [now left|].
  intros Hin. apply in_app_or in Hin as [Hin | [<- | []]]; [now left|].
  right. now exists s.
Qed.

Lemma In_append_number k v q x :
  In x (append_number toString k v q) ->
  In x q \/ (exists n, v = Some n /\ n <> 0 /\ x = (k, toString n)).
Proof.
  unfold append_number. destruct v as [n|]; [| now left].
  destruct (Z.eqb_spec n 0); [now left|].
  intros Hin. apply in_app_or in Hin as [Hin | [<- | []]]; [now left|].
  right. now exists n.
Qed.

(** X11.  The query [listReports] builds: its keys are a subsequence of
    search, report_type, flag_level, status, time_range, page, limit,
    target_user_id, each at most once; no string value is empty; page
    appears only for a non-zero number, as its [toString]; a non-empty
    [user_id] is sent under the key target_user_id and never under
    user_id; without parameters the query is empty. *)
Theorem listReports_query_spec (params : option ListParams) :
  let q := listReports_query toString params in
  sublist (map fst q) query_keys /\
  NoDup (map fst q) /\
  (forall k v, In (k, v) q -> k <> "page"%string -> k <> "limit"%string ->
     v <> ""%string) /\
  (forall v, In ("page"%string, v) q ->
     exists n, field params page = Some n /\ n <> 0 /\ v = toString n) /\
  (forall u, field params user_id = Some u -> u <> ""%string ->
     In ("target_user_id"%string, u) q) /\
  ~ In "user_id"%string (map fst q) /\
  (params = None -> q = []).
Proof.
  intros q.
  assert (Hsub : sublist (map fst q) query_keys).
  { unfold q, listReports_query.
    rewrite !keys_append_string, !keys_append_number, !keys_append_string. simpl.
    change query_keys
      with ((((((((@nil string ++ ["search"%string]) ++ ["report_type"%string])
                 ++ ["flag_level"%string]) ++ ["status"%string])
               ++ ["time_range"%string]) ++ ["page"%string])
             ++ ["limit"%string]) ++ ["target_user_id"%string]).
    repeat apply sublist_app; try apply sublist_option; try reflexivity.
    - destruct (field params page) as [n|]; [destruct (n =? 0)|];
        first [apply sublist_nil_l | reflexivity].
    - destruct (field params limit) as [n|]; [destruct (n =? 0)|];
        first [apply sublist_nil_l | reflexivity]. }
  assert (Hnd : NoDup query_keys).
  { unfold query_keys.
    repeat (apply NoDup_cons_2;
            [rewrite ?elem_of_cons, elem_of_nil; intros Hin;
             repeat (destruct Hin as [Hin | Hin]; [discriminate|]); exact Hin|]).
    apply NoDup_nil_2. }
  split; [exact Hsub|]. split; [eapply sublist_NoDup; eassumption|].
  split; [| split; [| split; [| split]]].
  - intros k v Hin Hp Hl. unfold q, listReports_query in Hin.
    repeat (first
      [ apply In_append_string in Hin as [Hin | (s & _ & Hs & [= -> ->])];
        [| exact Hs]
      | apply In_append_number in Hin as [Hin | (n & _ & _ & [= -> ->])];
        [| congruence] ]).
    destruct Hin.
  - intros v Hin. unfold q, listReports_query in Hin.
    apply In_append_string in Hin as [Hin | (s & _ & _ & [=])].
    apply In_append_number in Hin as [Hin | (n & _ & _ & [=])].
    apply In_append_number in Hin as [Hin | (n & Hn & Hz & [= ->])];
      [| now exists n].
    repeat (apply In_append_string in Hin as [Hin | (s & _ & _ & [=])]).
    destruct Hin.
  - intros u Hu Hne. unfold q, listReports_query. rewrite Hu.
    unfold append_string at 1.
    destruct (String.eqb_spec u ""); [contradiction|].
    apply in_or_app. right. now left.
  - intros Hin. apply list_elem_of_In in Hin.
    pose proof (elem_of_sublist _ _ _ Hin Hsub) as Hk.
    apply list_elem_of_In in Hk. unfold query_keys in Hk. simpl in Hk.
    repeat (destruct Hk as [Hk | Hk]; [discriminate|]). destruct Hk.
  - intros ->. reflexivity.
Qed.

End QueryFacts.

End ApiClientFacts.

(** * Properties of the history screen *)

Module HistoryFacts.
Import ApiClient History.

Section HistoryQuery.
Variable toString : Z -> string.

(** X12.  The request of the history screen always asks for status
    'completed', page 1, limit 50 and a time range among all, 7d, 30d,
    90d, and never sends a search term; the filters 'All Types' and 'All'
    send no report_type and no flag_level; a flag level sent is the
    filter's label in lower case; target_user_id is absent when no family
    member is viewed. *)
Theorem history_query_spec (filters : Filters) (member : option string) :
  let q := listReports_query toString (Some (loadReports_params filters member)) in
  In ("status", "completed")%string q /\
  In ("page"%string, toString 1) q /\ In ("limit"%string, toString 50) q /\
  (exists r, In r ["all"; "7d"; "30d"; "90d"]%string /\ In ("time_range"%string, r) q) /\
  ~ In "search"%string (map fst q) /\
  (filter_type filters = "All Types"%string -> ~ In "report_type"%string (map fst q)) /\
  (filter_flag filters = "All"%string -> ~ In "flag_level"%string (map fst q)) /\
  (forall v, In ("flag_level"%string, v) q -> v = toLowerCase (filter_flag filters)) /\
  (member = None -> ~ In "target_user_id"%string (map fst q)).
Proof.
  cbv zeta. unfold listReports_query, loadReports_params, field. simpl.
  set (ty := if String.eqb (filter_type filters) "All Types" then None
             else Some (filter_type filters)).
  set (fl := if String.eqb (filter_flag filters) "All" then None
             else Some (toLowerCase (filter_flag filters))).
  assert (Htr : exists r, In r ["all"; "7d"; "30d"; "90d"]%string /\
                          time_range_of (filter_time filters) = r).
  { unfold time_range_of.
    repeat match goal with
           | |- context [if ?c then _ else _] => destruct c
           end;
      (eexists; split; [| reflexivity]; simpl; auto 6). }
  destruct Htr as (r & Hr & Htr).
  assert (Hrne : r <> ""%string).
  { simpl in Hr. destruct Hr as [<- | [<- | [<- | [<- | []]]]]; discriminate. }
  rewrite Htr.
  assert (Hq : forall u,
    append_string "target_user_id" u
      (append_number toString "limit" (Some 50)
         (append_number toString "page" (Some 1)
            (append_string "time_range" (Some r)
               (append_string "status" (Some "completed"%string)
                  (append_string "flag_level" fl
                     (append_string "report_type" ty [])))))) =
    (append_string "flag_level" fl (append_string "report_type" ty []))
      ++ [("status", "completed"); ("time_range", r); ("page", toString 1);
          ("limit", toString 50)]%string
      ++ (if falsy u then [] else [("target_user_id"%string, default ""%string u)])).
  { intros u. unfold append_string at 3. simpl.
    unfold append_string at 2. destruct (String.eqb_spec r ""); [contradiction|].
    unfold append_number; simpl.
    unfold append_string at 1, falsy. destruct u as [u|]; simpl.
    - destruct (String.eqb u ""); simpl; rewrite <- ?app_assoc; simpl;
        rewrite ?app_nil_r; reflexivity.
    - rewrite <- ?app_assoc; simpl. reflexivity. }
  rewrite Hq. clear Hq.
  set (pre := append_string "flag_level" fl (append_string "report_type" ty [])).
  assert (Hpre : forall x, In x pre ->
            (exists s, ty = Some s /\ x = ("report_type"%string, s)) \/
            (exists s, fl = Some s /\ x = ("flag_level"%string, s))).
  { intros x Hx. unfold pre in Hx.
    apply ApiClientFacts.In_append_string in Hx as [Hx | (s & Hs & _ & ->)];
      [| right; now exists s].
    apply ApiClientFacts.In_append_string in Hx as [[] | (s & Hs & _ & ->)].
    left; now exists s. }
  assert (Hkeys : forall k, In k (map fst (pre ++
            [("status", "completed"); ("time_range", r); ("page", toString 1);
             ("limit", toString 50)]%string
            ++ (if falsy member then [] else [("target_user_id"%string, default ""%string member)]))) ->
            (k = "report_type"%string /\ ty <> None) \/
            (k = "flag_level"%string /\ fl <> None) \/
            In k ["status"; "time_range"; "page"; "limit"]%string \/
            (k = "target_user_id"%string /\ member <> None)).
  { intros k Hk. apply in_map_iff in Hk as ([k' v] & <- & Hin). simpl.
    apply in_app_or in Hin as [Hin | Hin].
    - destruct (Hpre _ Hin) as [(s & Hs & [= -> ->]) | (s & Hs & [= -> ->])].
      + left. split; congruence.
      + right; left. split; congruence.
    - apply in_app_or in Hin as [Hin | Hin].
      + right; right; left. simpl in Hin. simpl.
        intuition (match goal with H : (_, _) = (_, _) |- _ => injection H as <- _ end; auto).
      + destruct member as [u|]; simpl in Hin; [| destruct Hin].
        destruct (String.eqb u ""); simpl in Hin; [destruct Hin|].
        destruct Hin as [[= <- _] | []]. right; right; right. split; congruence. }
  split; [apply in_or_app; right; simpl; auto|].
  split; [apply in_or_app; right; simpl; auto|].
  split; [apply in_or_app; right; simpl; auto|].
  split; [exists r; split; [exact Hr|]; apply in_or_app; right; simpl; auto|].
  split; [| split; [| split; [| split]]].
  - intros Hk. apply Hkeys in Hk. simpl in Hk.
    intuition discriminate.
  - intros Hty Hk. apply Hkeys in Hk. unfold ty in Hk. rewrite Hty in Hk.
    simpl in Hk. intuition (try discriminate; congruence).
  - intros Hfl Hk. apply Hkeys in Hk. unfold fl in Hk. rewrite Hfl in Hk.
    simpl in Hk. intuition (try discriminate; congruence).
  - intros v Hin. apply in_app_or in Hin as [Hin | Hin].
    + destruct (Hpre _ Hin) as [(s & Hs & [=]) | (s & Hs & [= ->])].
      unfold fl in Hs. destruct (String.eqb (filter_flag filters) "All");
        congruence.
    + apply in_app_or in Hin as [Hin | Hin].
      * simpl in Hin. intuition discriminate.
      * destruct (falsy member); simpl in Hin; intuition discriminate.
  - intros -> Hk. apply Hkeys in Hk. simpl in Hk.
    intuition (try discriminate; congruence).
Qed.

End HistoryQuery.

Lemma sublist_List_filter {A} (f : A -> bool) (l : list A) :
  sublist (List.filter f l) l.
Proof.
  induction l as [| x l IH]; simpl; [constructor|].
  destruct (f x); [now apply sublist_skip | now apply sublist_cons].
Qed.

Lemma includes_In (x : string) (l : list string) : includes x l = true <-> In x l.
Proof.
  unfold includes. rewrite existsb_exists. split.
  - intros (y & Hy & He). apply String.eqb_eq in He. now subst.
  - intros Hin. exists x. split; [exact Hin | apply String.eqb_refl].
Qed.

(** X13.  A click on a report in delete mode toggles its membership in the
    selection and that of no other report; a selection without duplicates
    stays so; and two clicks on the same report give back the selection up
    to order. *)
Theorem toggle_selected_spec (reportId : string) (selectedReports : list string) :
  (In reportId (toggle_selected reportId selectedReports) <->
   ~ In reportId selectedReports) /\
  (forall x, x <> reportId ->
     (In x (toggle_selected reportId selectedReports) <-> In x selectedReports)) /\
  (NoDup selectedReports -> NoDup (toggle_selected reportId selectedReports)) /\
  (NoDup selectedReports ->
     toggle_selected reportId (toggle_selected reportId selectedReports)
     ≡ₚ selectedReports).
Proof.
  unfold toggle_selected.
  destruct (includes reportId selectedReports) eqn:Hinc.
  - apply includes_In in Hinc.
    assert (Hnot : ~ In reportId
              (List.filter (fun id => negb (String.eqb id reportId)) selectedReports)).
    { intros H. apply filter_In in H as [_ H]. now rewrite String.eqb_refl in H. }
    assert (Hinc' : includes reportId
              (List.filter (fun id => negb (String.eqb id reportId)) selectedReports) = false).
    { destruct (includes _ _) eqn:E; [| reflexivity].
      apply includes_In in E. contradiction. }
    split; [tauto|]. split; [| split].
    + intros x Hx. rewrite filter_In. split; [tauto|].
      intros H. split; [exact H|]. apply negb_true_iff.
      now apply String.eqb_neq.
    + intros Hnd. apply NoDup_ListNoDup. apply List.NoDup_filter.
      now apply NoDup_ListNoDup.
    + intros Hnd. rewrite Hinc'.
      apply NoDup_Permutation.
      * apply NoDup_app. split; [| split].
        -- apply NoDup_ListNoDup, List.NoDup_filter. now apply NoDup_ListNoDup.
        -- intros x Hx Hx'. apply list_elem_of_In in Hx.
           apply list_elem_of_singleton in Hx'. subst. contradiction.
        -- apply NoDup_singleton.
      * exact Hnd.
      * intros x. rewrite elem_of_app, list_elem_of_singleton, !list_elem_of_In.
        rewrite filter_In. split.
        -- intros [[H _] | ->]; assumption.
        -- intros H. destruct (String.eqb_spec x reportId) as [-> | Hne];
             [now right | left]. split; [exact H | reflexivity].
  - assert (Hnin : ~ In reportId selectedReports).
    { intros H. apply includes_In in H. congruence. }
    split; [| split; [| split]].
    + split; [tauto|]. intros _. apply in_or_app. right. now left.
    + intros x Hx. rewrite in_app_iff. simpl. split; [| tauto].
      intros [H | [H | []]]; [exact H | congruence].
    + intros Hnd. apply NoDup_app. split; [exact Hnd | split].
      * intros x Hx Hx'. apply list_elem_of_singleton in Hx'. subst.
        apply list_elem_of_In in Hx. contradiction.
      * apply NoDup_singleton.
    + intros _.
      assert (Hinc2 : includes reportId (selectedReports ++ [reportId]) = true).
      { apply includes_In. apply in_or_app. right. now left. }
      rewrite Hinc2.
      assert (Hf : List.filter (fun id => negb (String.eqb id reportId))
                     (selectedReports ++ [reportId]) = selectedReports).
      { rewrite List.filter_app. simpl. rewrite String.eqb_refl. simpl.
        rewrite app_nil_r.
        clear Hinc Hinc2. induction selectedReports as [| y l IH]; simpl; [reflexivity|].
        destruct (String.eqb_spec y reportId) as [-> | Hne]; simpl.
        - exfalso. apply Hnin. now left.
        - f_equal. apply IH. intros H. apply Hnin. now right. }
      now rewrite Hf.
Qed.

Lemma toggle_selected_spec_witness :
  toggle_selected "r1" (toggle_selected "r1" ["r0"; "r1"; "r2"])
  ≡ₚ ["r0"; "r1"; "r2"]%string.
Proof.
  apply (toggle_selected_spec "r1" ["r0"; "r1"; "r2"]%string).
  repeat (apply NoDup_cons_2;
          [rewrite ?elem_of_cons, elem_of_nil; intros Hin;
           repeat (destruct Hin as [Hin | Hin]; [discriminate|]); exact Hin|]).
  apply NoDup_nil_2.
Defined.

(** X14.  [performDelete] sends no delete request while a family member's
    reports are shown, and one per selected id otherwise.  If a member is
    viewed or a request fails, the reports, the selection and the delete
    mode are unchanged.  If all succeed, the reports left are exactly
    those whose id was not selected, in their order, the selection is
    empty and the delete mode is off. *)
Theorem performDelete_spec (viewingMember all_deleted : bool) (h : HistoryState) :
  let h' := performDelete viewingMember all_deleted h in
  (viewingMember = true -> performDelete_requests viewingMember h = []) /\
  (viewingMember = true \/ all_deleted = false ->
     reports h' = reports h /\ selectedReports h' = selectedReports h /\
     isDeleteMode h' = isDeleteMode h) /\
  (viewingMember = false -> all_deleted = true ->
     (forall r, In r (reports h') <->
                In r (reports h) /\ ~ In (id r) (selectedReports h)) /\
     sublist (reports h') (reports h) /\
     selectedReports h' = [] /\ isDeleteMode h' = false /\
     performDelete_requests viewingMember h = selectedReports h).
Proof.
  unfold performDelete, performDelete_requests. cbv zeta. split; [| split].
  - now intros ->.
  - intros [-> | ->]; [now auto | destruct viewingMember; now auto].
  - intros -> ->. simpl. split; [| split; [| now auto]].
    + intros r. rewrite filter_In, negb_true_iff. split.
      * intros [H Hn]. split; [exact H|]. intros Hin.
        apply includes_In in Hin. congruence.
      * intros [H Hn]. split; [exact H|].
        destruct (includes (id r) (selectedReports h)) eqn:E; [| reflexivity].
        apply includes_In in E. contradiction.
    + apply sublist_List_filter.
Qed.

End HistoryFacts.

(** * Properties of the scan screen *)

Module ScanScreenFacts.
Import PollLoop ScanScreen ScanningEffect.

Lemma fold_visit (type : FileKind) (fs : list File) : forall acc,
  fold_left (visit type) fs acc =
  (fst acc ++ List.filter (accepted type) fs,
   snd acc || negb (forallb (accepted type) fs)).
Proof.
  induction fs as [| f fs IH]; intros [nf inv]; simpl.
  - now rewrite app_nil_r, orb_false_r.
  - rewrite IH. unfold visit; simpl. destruct (accepted type f); simpl.
    + now rewrite <- app_assoc.
    + now rewrite orb_true_r.
Qed.

(** X15.  [validateAndAddFiles] appends to the captured files those of the
    given ones that pass the test of the kind asked for (type starts with
    'image/', or type is 'application/pdf'), in their order; so every
    captured file was there before or passed the test.  A toast is added
    exactly when some file fails the test, the [uploading] flag is not
    touched, and a null list changes nothing. *)
Theorem validateAndAddFiles_spec (files : list File) (type : FileKind)
    (st : ScanState) :
  let st' := validateAndAddFiles (Some files) type st in
  capturedImages st' = capturedImages st ++ List.filter (accepted type) files /\
  (forall f, In f (capturedImages st') ->
     In f (capturedImages st) \/ (In f files /\ accepted type f = true)) /\
  (scan_toasts st' = scan_toasts st <-> forallb (accepted type) files = true) /\
  uploading st' = uploading st /\
  validateAndAddFiles None type st = st.
Proof.
  cbv zeta. unfold validateAndAddFiles.
  destruct files as [| f0 fs].
  - simpl. rewrite app_nil_r. repeat split; auto.
  - rewrite fold_visit. simpl fst. simpl snd. rewrite app_nil_l, orb_false_l.
    remember (f0 :: fs) as fs' eqn:Hfs'. clear Hfs'.
    assert (Hcap : capturedImages
              (match List.filter (accepted type) fs' with
               | [] => mkScan (capturedImages st) (uploading st)
                         (if negb (forallb (accepted type) fs')
                          then scan_toasts st ++
                                 [String.append "Please select "
                                    (String.append (kind_name type) " files only.")]
                          else scan_toasts st)
               | _ :: _ => mkScan (capturedImages st ++ List.filter (accepted type) fs')
                         (uploading st)
                         (if negb (forallb (accepted type) fs')
                          then scan_toasts st ++
                                 [String.append "Please select "
                                    (String.append (kind_name type) " files only.")]
                          else scan_toasts st)
               end) = capturedImages st ++ List.filter (accepted type) fs').
    { destruct (List.filter (accepted type) fs'); simpl; [now rewrite app_nil_r | reflexivity]. }
    split; [exact Hcap|]. split; [| split; [| split]].
    + intros f Hin. rewrite Hcap in Hin. apply in_app_or in Hin as [Hin | Hin];
        [now left | right]. now apply filter_In in Hin.
    + destruct (List.filter (accepted type) fs'); simpl;
        destruct (forallb (accepted type) fs'); simpl; split; auto;
        try discriminate; intros H; exfalso;
        apply (f_equal (@length string)) in H; rewrite length_app in H;
        simpl in H; lia.
    + destruct (List.filter (accepted type) fs'); reflexivity.
    + reflexivity.
Qed.

Lemma filter_index_past {A} (index : nat) (l : list A) : forall k,
  (index < k)%nat ->
  filter_index (fun j => negb (Nat.eqb j index)) k l = l.
Proof.
  induction l as [| z l IH]; intros k Hk; cbn [filter_index]; [reflexivity|].
  destruct (Nat.eqb_spec k index) as [E | _]; [lia|].
  cbn [negb]. f_equal. apply IH. lia.
Qed.

Lemma filter_index_remove {A} (l : list A) : forall index i,
  filter_index (fun j => negb (Nat.eqb j (i + index))) i l
  = take index l ++ drop (S index) l.
Proof.
  induction l as [| x l IH]; intros index i; cbn [filter_index].
  - now destruct index.
  - destruct index as [| index].
    + rewrite Nat.add_0_r, Nat.eqb_refl. cbn [negb]. simpl. rewrite drop_0.
      apply filter_index_past. lia.
    + destruct (Nat.eqb_spec i (i + S index)) as [E | _]; [lia|].
      cbn [negb]. simpl. f_equal.
      replace (i + S index)%nat with (S i + index)%nat by lia.
      apply IH.
Qed.

(** X16.  [removeImage] drops the file at the index and keeps the others
    in order: with an index inside the list the length falls by one, the
    files before the index stay in place and those after it move up by
    one; with an index outside the list nothing changes. *)
Theorem removeImage_spec (index : nat) (st : ScanState) :
  let l := capturedImages st in
  let l' := capturedImages (removeImage index st) in
  l' = take index l ++ drop (S index) l /\
  ((index < length l)%nat -> length l' = (length l - 1)%nat) /\
  ((length l <= index)%nat -> l' = l) /\
  (forall j, (j < index)%nat -> l' !! j = l !! j) /\
  (forall j, (index <= j)%nat -> l' !! j = l !! (S j)).
Proof.
  cbv zeta. unfold removeImage. cbn [capturedImages].
  change (fun i => negb (Nat.eqb i index))
    with (fun i => negb (Nat.eqb i (0 + index))).
  rewrite (filter_index_remove (capturedImages st) index 0).
  set (l := capturedImages st).
  split; [reflexivity|]. split; [| split; [| split]].
  - intros Hlt. rewrite length_app, length_take, length_drop. lia.
  - intros Hge. rewrite take_ge by lia. rewrite drop_ge by lia.
    apply app_nil_r.
  - intros j Hj. destruct (le_lt_dec (length l) j) as [Hl | Hl].
    + rewrite (lookup_ge_None_2 l j) by lia.
      apply lookup_ge_None_2. rewrite length_app, length_take, length_drop. lia.
    + rewrite lookup_app_l by (rewrite length_take; lia).
      now apply lookup_take_lt.
  - intros j Hj. destruct (le_lt_dec (length l) index) as [Hl | Hl].
    + rewrite take_ge, drop_ge, app_nil_r by lia.
      rewrite !lookup_ge_None_2 by lia. reflexivity.
    + rewrite lookup_app_r by (rewrite length_take; lia).
      rewrite length_take, lookup_drop.
      f_equal. lia.
Qed.

(** X17.  With no captured file [handleScan] uploads nothing and leaves
    the navigation and the [uploading] flag alone.  Otherwise it uploads
    the first captured file only, keeps the list, and ends with
    [uploading] false; on success the screen is 'scanning' and the report
    id is the one returned, so that the scanning screen's effect issues
    its first query at once when the id is not empty, and only sets its
    2000 ms redirect when it is; on failure the screen is 'scan-error' and
    the report id is unchanged. *)
Theorem handleScan_spec (result : UploadResult) (st : ScanState) (nav : Nav)
    (t0 : Z) :
  let st' := fst (handleScan result st nav) in
  let nav' := snd (handleScan result st nav) in
  (capturedImages st = [] ->
     handleScan_upload st = None /\ nav' = nav /\ uploading st' = uploading st) /\
  (forall file rest, capturedImages st = file :: rest ->
     handleScan_upload st = Some file /\ uploading st' = false /\
     capturedImages st' = capturedImages st /\
     (forall report_id, result = Uploaded report_id ->
        currentScreen nav' = scanning /\ currentReportId nav' = Some report_id /\
        (report_id <> ""%string ->
           queries (effect (currentReportId nav') t0) = 1%nat /\
           inflight (effect (currentReportId nav') t0) = Some 0) /\
        (report_id = ""%string ->
           queries (effect (currentReportId nav') t0) = 0%nat /\
           timers (effect (currentReportId nav') t0)
           = [mkTimer 1 (t0 + 2000) (CbNavigate scan)])) /\
     (forall message, result = UploadFailed message ->
        currentScreen nav' = scan_error /\
        currentReportId nav' = currentReportId nav)).
Proof.
  cbv zeta. unfold handleScan, handleScan_upload. split.
  - intros ->. simpl. now auto.
  - intros file rest ->.
    split; [reflexivity|].
    destruct result as [rid | msg]; simpl; repeat split; try discriminate.
    + now injection H as <-.
    + injection H as <-. unfold effect. simpl.
      destruct (String.eqb_spec rid ""); [contradiction|].
      unfold mount, pollStatus, initial, issue_query; simpl.
      replace (t0 - t0) with 0 by lia. reflexivity.
    + injection H as <-. unfold effect. simpl.
      destruct (String.eqb_spec rid ""); [contradiction|].
      unfold mount, pollStatus, initial, issue_query; simpl.
      replace (t0 - t0) with 0 by lia. reflexivity.
    + injection H as <-. subst. reflexivity.
    + injection H as <-. subst. reflexivity.
Qed.

End ScanScreenFacts.

(** * Properties of the profile row *)

Module ProfileFacts.
Import Profile.

Lemma split_space_cons (s : string) : exists h t, split_space s = h :: t.
Proof.
  destruct s as [| c r]; simpl; [now eauto|].
  destruct (Ascii.eqb c " "); [now eauto|].
  destruct (split_space r); now eauto.
Qed.

Lemma concat_split (s : string) : String.concat " " (split_space s) = s.
Proof.
  induction s as [| c r IH]; simpl; [reflexivity|].
  destruct (Ascii.eqb_spec c " ") as [-> | Hne].
  - destruct (split_space_cons r) as (h & t & Hr). rewrite Hr in *.
    simpl. simpl in IH. now rewrite IH.
  - destruct (split_space_cons r) as (h & t & Hr). rewrite Hr in *.
    simpl in *. destruct t; simpl in *; now rewrite <- IH.
Qed.

Lemma head_no_space (s : string) :
  match split_space s with h :: _ => has_space h = false | [] => False end.
Proof.
  induction s as [| c r IH]; simpl; [reflexivity|].
  destruct (Ascii.eqb c " ") eqn:Hc; [reflexivity|].
  destruct (split_space r); [contradiction|]. simpl. now rewrite Hc.
Qed.

Lemma split_no_space (s : string) : has_space s = false -> split_space s = [s].
Proof.
  induction s as [| c r IH]; simpl; [reflexivity|].
  intros H. apply orb_false_iff in H as [Hc Hr]. rewrite Hc, (IH Hr). reflexivity.
Qed.

Lemma split_tail_nonempty (s : string) :
  has_space s = true -> tl (split_space s) <> [].
Proof.
  induction s as [| c r IH]; simpl; [discriminate|].
  destruct (Ascii.eqb c " "); simpl.
  - intros _. destruct (split_space_cons r) as (h & t & ->). discriminate.
  - intros Hr. destruct (split_space_cons r) as (h & t & Hs). rewrite Hs in *.
    simpl in *. now apply IH.
Qed.

(** X18.  The split of the profile's full name: the parts joined by single
    spaces give the full name back; the first name holds no space; a full
    name without a space is the first name, with an empty last name; a
    full name with a space is the first name, a space, and the last name;
    a null full name gives two empty names. *)
Theorem name_split_spec (full_name : option string) :
  let full := match full_name with Some s => s | None => EmptyString end in
  String.concat " " (nameParts full_name) = full /\
  has_space (firstName full_name) = false /\
  (has_space full = false ->
     firstName full_name = full /\ lastName full_name = EmptyString) /\
  (has_space full = true ->
     full = String.append (firstName full_name)
              (String.append " " (lastName full_name))) /\
  (full_name = None ->
     firstName full_name = EmptyString /\ lastName full_name = EmptyString).
Proof.
  cbv zeta. unfold firstName, lastName, nameParts.
  set (full := match full_name with Some s => s | None => EmptyString end).
  split; [apply concat_split|]. split; [| split; [| split]].
  - pose proof (head_no_space full) as H.
    destruct (split_space full); [contradiction | exact H].
  - intros H. rewrite (split_no_space full H). now split.
  - intros H. pose proof (concat_split full) as Hc.
    pose proof (split_tail_nonempty full H) as Ht.
    destruct (split_space full) as [| h t]; [now elim Ht|].
    simpl in *. destruct t; [now elim Ht|]. now symmetry.
  - intros ->. now split.
Qed.

End ProfileFacts.

(** * Properties of the auth listener and of the persistence effect *)

Module AuthEventsFacts.
Import Session SessionFacts AuthEvents.

(** X19.  The auth listener, up to its first await: every event other than
    SIGNED_OUT leaves the storage, the screen, the tab and the user alone;
    SIGNED_OUT runs the sign-out branch with or without a session; an
    event other than SIGNED_OUT that comes without a session changes
    nothing; and the state is logged in afterwards only if it was before,
    or the event is SIGNED_IN or TOKEN_REFRESHED with a session. *)
Theorem auth_event_spec (event : string) (session : bool)
    (w : App * gmap string string) :
  let w' := onAuthStateChange event session w in
  (event <> "SIGNED_OUT"%string ->
     snd w' = snd w /\ currentScreen (fst w') = currentScreen (fst w) /\
     activeTab (fst w') = activeTab (fst w) /\ hasUser (fst w') = hasUser (fst w)) /\
  (event = "SIGNED_OUT"%string -> w' = signedOut (fst w) (snd w)) /\
  (session = false -> event <> "SIGNED_OUT"%string -> w' = w) /\
  (isLoggedIn (fst w') = true ->
     isLoggedIn (fst w) = true \/
     (session = true /\
      (event = "SIGNED_IN"%string \/ event = "TOKEN_REFRESHED"%string))).
Proof.
  cbv zeta. unfold onAuthStateChange.
  destruct (String.eqb_spec event "SIGNED_IN") as [-> | Hin]; simpl.
  - destruct session; simpl.
    + split; [now intros _ |]. split; [discriminate|]. split; [discriminate|].
      intros _. right. now auto.
    + split; [now intros _ |]. split; [discriminate|]. split; [reflexivity|].
      intros H. now left.
  - destruct (String.eqb_spec event "SIGNED_OUT") as [-> | Hout]; simpl.
    + split; [now intros H |]. split; [reflexivity|]. split; [now intros _ H |].
      discriminate.
    + destruct (String.eqb_spec event "TOKEN_REFRESHED") as [-> | Href]; simpl.
      * destruct session; simpl.
        -- split; [now intros _ |]. split; [discriminate|]. split; [discriminate|].
           intros _. right. now auto.
        -- split; [now intros _ |]. split; [discriminate|]. split; [reflexivity|].
           intros H. now left.
      * split; [now intros _ |]. split; [now intros H |]. split; [reflexivity|].
        intros H. now left.
Qed.

Lemma logged_out_acts (xs : list Action) : forall w,
  stays_logged_out xs = true -> isLoggedIn (fst w) = false ->
  snd w !! screen_key = None -> snd w !! tab_key = None ->
  isLoggedIn (fst (acts xs w)) = false /\
  snd (acts xs w) !! screen_key = None /\ snd (acts xs w) !! tab_key = None.
Proof.
  induction xs as [| x xs IH]; intros [a ls] Hx Hl Hs Ht; simpl in *;
    [now auto|].
  apply andb_true_iff in Hx as [Hx Hxs].
  apply IH; [assumption | | |]; destruct x as [a' | |]; simpl.
  - now apply negb_true_iff in Hx.
  - assumption.
  - reflexivity.
  - assumption.
  - now rewrite persist_logged_out.
  - rewrite lookup_delete_ne by apply keys_differ. apply lookup_delete_eq.
  - assumption.
  - now rewrite persist_logged_out.
  - apply lookup_delete_eq.
Qed.

(** X20.  After a sign-out, as long as no state set is a logged-in one,
    any sequence of state changes, runs of the persistence effect and
    further sign-outs leaves the state logged out and both storage keys
    absent. *)
Theorem nothing_saved_while_logged_out (a : App) (ls : gmap string string)
    (xs : list Action) :
  stays_logged_out xs = true ->
  let w := acts xs (signedOut a ls) in
  isLoggedIn (fst w) = false /\
  snd w !! screen_key = None /\ snd w !! tab_key = None.
Proof.
  intros Hx. cbv zeta.
  destruct (signedOut_spec a ls) as (_ & Hl & Hs & Ht & _).
  now apply logged_out_acts.
Qed.

Lemma nothing_saved_while_logged_out_witness :
  let xs := [RunEffect; SetState (mkApp "login" "history" false false false);
             RunEffect; SignOut; RunEffect] in
  let w := acts xs (signedOut (mkApp "history" "history" true true false)
                              saved_history) in
  stays_logged_out xs = true /\
  isLoggedIn (fst w) = false /\
  snd w !! screen_key = None /\ snd w !! tab_key = None.
Proof.
  split; [reflexivity|].
  apply (nothing_saved_while_logged_out
           (mkApp "history" "history" true true false) saved_history).
  reflexivity.
Defined.

(** X21.  A SIGNED_IN event that follows a sign-out and finds a user ends,
    after its commit, logged in on screen 'home' and tab 'home', with both
    written to the storage, whatever the storage held before the sign-out
    and whenever the first commit happens. *)
Theorem sign_in_after_sign_out (a : App) (ls : gmap string string)
    (profile commit_first : bool) :
  let w := sign_in true profile commit_first (signedOut a ls) in
  currentScreen (fst w) = screen_name home /\
  activeTab (fst w) = "home"%string /\
  isLoggedIn (fst w) = true /\
  snd w !! screen_key = Some (screen_name home) /\
  snd w !! tab_key = Some "home"%string.
Proof.
  cbv zeta. unfold sign_in, signedOut, signedIn_begin, signedIn_resume.
  cbn [fst snd].
  set (a0 := setActiveTab "home" _).
  set (a1 := setIsLoggedIn true a0).
  set (ls0 := delete tab_key (delete screen_key ls)).
  assert (Hs0 : ls0 !! screen_key = None).
  { unfold ls0. rewrite lookup_delete_ne by apply keys_differ.
    apply lookup_delete_eq. }
  assert (Hc01 : commit a0 a1 ls0 = persist a1 ls0) by reflexivity.
  set (ls1 := if commit_first then commit a0 a1 ls0 else ls0).
  assert (Hs1 : ls1 !! screen_key = None).
  { unfold ls1. destruct commit_first; [| assumption].
    rewrite Hc01, persist_screen. unfold a1, a0; simpl. assumption. }
  set (a' := if profile then setUser true a1 else a1).
  assert (Hr : restore true ls1 a' =
               setActiveTab "home" (setCurrentScreen (screen_name home) a')).
  { unfold restore. now rewrite Hs1. }
  rewrite Hr.
  assert (Hl : isLoggedIn a' = true) by (unfold a', a1; now destruct profile).
  set (a2 := setActiveTab "home" (setCurrentScreen (screen_name home) a')).
  assert (Hc2 : commit (if commit_first then a1 else a0) a2 ls1 = persist a2 ls1).
  { unfold commit, same_deps. destruct commit_first; reflexivity. }
  rewrite Hc2, persist_screen, persist_tab. unfold a2. simpl. rewrite Hl.
  simpl. now auto.
Qed.

Lemma restore_reads_persist (a a' : App) (ls : gmap string string)
    (reset_tab : bool) :
  isLoggedIn a = true ->
  truthy (currentScreen a) = true -> auth_only (currentScreen a) = false ->
  truthy (activeTab a) = true ->
  currentScreen (restore reset_tab (persist a ls) a') = currentScreen a /\
  activeTab (restore reset_tab (persist a ls) a') = activeTab a.
Proof.
  intros Hl Hts Ha Htt.
  assert (Hs : persist a ls !! screen_key = Some (currentScreen a))
    by (rewrite persist_screen, Hl, Ha; reflexivity).
  assert (Ht : persist a ls !! tab_key = Some (activeTab a))
    by (rewrite persist_tab, Hl, Htt; reflexivity).
  destruct (restore_spec reset_tab (persist a ls) a') as (H1 & _).
  destruct (H1 _ Hs Hts Ha) as [Hsc Htb]. split; [assumption|].
  now apply Htb.
Qed.

(** X22.  What the persistence effect saves for a logged-in state on a
    screen that is not auth-only, the restore step reads back: restoring
    from that storage into any state gives the saved screen and the saved
    tab, in either handler, and leaves the login flag and the user as they
    are. *)
Theorem persist_restore_round_trip (a a' : App) (ls : gmap string string)
    (reset_tab : bool) :
  isLoggedIn a = true ->
  truthy (currentScreen a) = true -> auth_only (currentScreen a) = false ->
  truthy (activeTab a) = true ->
  let a2 := restore reset_tab (persist a ls) a' in
  currentScreen a2 = currentScreen a /\ activeTab a2 = activeTab a /\
  isLoggedIn a2 = isLoggedIn a' /\ hasUser a2 = hasUser a'.
Proof.
  intros Hl Hts Ha Htt. cbv zeta.
  destruct (restore_reads_persist a a' ls reset_tab Hl Hts Ha Htt) as [H1 H2].
  split; [exact H1|]. split; [exact H2|].
  assert (Hs : persist a ls !! screen_key = Some (currentScreen a))
    by (rewrite persist_screen, Hl, Ha; reflexivity).
  assert (Ht : persist a ls !! tab_key = Some (activeTab a))
    by (rewrite persist_tab, Hl, Htt; reflexivity).
  split.
  - unfold restore. rewrite Hs, Hts, Ha, Ht, Htt. reflexivity.
  - unfold restore. rewrite Hs, Hts, Ha, Ht, Htt. reflexivity.
Qed.

Lemma persist_restore_round_trip_witness :
  let a := mkApp "report-result" "history" true true false in
  currentScreen (restore true (persist a ∅) initialApp) = "report-result"%string /\
  activeTab (restore true (persist a ∅) initialApp) = "history"%string.
Proof.
  destruct (persist_restore_round_trip
              (mkApp "report-result" "history" true true false) initialApp ∅ true
              eq_refl eq_refl eq_refl eq_refl) as (H1 & H2 & _).
  split; [exact H1 | exact H2].
Defined.

(** X23.  The persistence effect changes no storage key other than
    mediguide_current_screen and mediguide_active_tab, and running it
    twice on the same state is the same as running it once. *)
Theorem persist_only_its_keys (a : App) (ls : gmap string string) :
  (forall k, k <> screen_key -> k <> tab_key -> persist a ls !! k = ls !! k) /\
  persist a (persist a ls) = persist a ls.
Proof.
  split.
  - intros k Hs Ht. unfold persist.
    destruct (isLoggedIn a && truthy (activeTab a));
      [rewrite lookup_insert_ne by congruence|];
      destruct (isLoggedIn a && negb (auth_only (currentScreen a)));
      now rewrite ?lookup_insert_ne by congruence.
  - apply map_eq. intros k.
    destruct (decide (k = screen_key)) as [-> | Hs].
    + rewrite !persist_screen.
      now destruct (isLoggedIn a && negb (auth_only (currentScreen a))).
    + destruct (decide (k = tab_key)) as [-> | Ht].
      * rewrite !persist_tab.
        now destruct (isLoggedIn a && truthy (activeTab a)).
      * unfold persist.
        destruct (isLoggedIn a && truthy (activeTab a));
          destruct (isLoggedIn a && negb (auth_only (currentScreen a)));
          now rewrite ?lookup_insert_ne by congruence.
Qed.

Lemma sign_in_while_logged_in (a : App) (ls : gmap string string)
    (profile commit_first : bool) :
  isLoggedIn a = true ->
  fst (sign_in true profile commit_first (a, ls))
  = restore true ls (if profile then setUser true a else a).
Proof.
  destruct a as [sc tb li us ck]; simpl. intros ->.
  unfold sign_in, signedIn_begin, signedIn_resume, setIsLoggedIn, commit,
    same_deps; simpl.
  rewrite !String.eqb_refl. simpl. now destruct commit_first.
Qed.

(** X24.  A SIGNED_IN event is received on a screen that is not auth-only,
    and the first commit is made before the profile request returns.  If
    the state was not logged in, or the storage already holds the current
    screen and tab, the event leaves the screen and the tab where they
    are: in the first case the persistence effect, run by the commit of
    [setIsLoggedIn(true)], has saved the current place before the handler
    reads it, whatever the storage held; in the second there is no such
    commit and the handler reads the storage as it is. *)
Theorem sign_in_keeps_place (a : App) (ls : gmap string string)
    (profile : bool) :
  truthy (currentScreen a) = true -> auth_only (currentScreen a) = false ->
  truthy (activeTab a) = true ->
  isLoggedIn a = false \/
  (ls !! screen_key = Some (currentScreen a) /\
   ls !! tab_key = Some (activeTab a)) ->
  let w := sign_in true profile true (a, ls) in
  currentScreen (fst w) = currentScreen a /\ activeTab (fst w) = activeTab a.
Proof.
  intros Hts Ha Htt Hcase. cbv zeta.
  destruct (isLoggedIn a) eqn:Hl.
  - destruct Hcase as [Hcase | [Hs Ht]]; [discriminate|].
    rewrite sign_in_while_logged_in by assumption.
    destruct (restore_spec true ls (if profile then setUser true a else a))
      as (H1 & _).
    destruct (H1 _ Hs Hts Ha) as [Hsc Htb]. split; [exact Hsc|].
    now apply Htb.
  - unfold sign_in, signedIn_begin, signedIn_resume. cbn [fst snd].
    set (a1 := setIsLoggedIn true a).
    assert (Hc : commit a a1 ls = persist a1 ls).
    { unfold commit, same_deps, a1. simpl. rewrite Hl. simpl.
      now rewrite andb_false_r. }
    rewrite Hc.
    change (currentScreen a) with (currentScreen a1).
    change (activeTab a) with (activeTab a1).
    apply restore_reads_persist; assumption || reflexivity.
Qed.

Lemma sign_in_keeps_place_witness :
  let a := mkApp "report-result" "scan" false false false in
  let w := sign_in true true true (a, saved_history) in
  currentScreen (fst w) = "report-result"%string /\
  activeTab (fst w) = "scan"%string.
Proof.
  apply (sign_in_keeps_place (mkApp "report-result" "scan" false false false)
           saved_history true);
    [reflexivity | reflexivity | reflexivity | left; reflexivity].
Defined.

(** X25.  However the session check ends, the start-up ends with
    [isCheckingAuth] false; the state is logged in exactly when session
    and user are both there, has a user exactly when in addition the
    profile was found, and is on an auth-only screen exactly when there is
    no valid session; without a valid session (or when the check throws)
    the screen is 'onboarding' and the storage is left as it was. *)
Theorem app_start_outcome (c : AuthCheck) (profile commit_first : bool)
    (ls : gmap string string) :
  let w := app_start c profile commit_first ls in
  isCheckingAuth (fst w) = false /\
  isLoggedIn (fst w) = valid_session c /\
  hasUser (fst w) = valid_session c && profile /\
  auth_only (currentScreen (fst w)) = negb (valid_session c) /\
  (valid_session c = false ->
     snd w = ls /\ currentScreen (fst w) = screen_name onboarding).
Proof.
  cbv zeta. unfold app_start, initializeAuth_check.
  destruct (valid_session c) eqn:Hv.
  - unfold initializeAuth_resume. cbn [fst snd].
    set (ls1 := if commit_first then _ else _).
    set (a1 := if profile then _ else _).
    assert (H : isLoggedIn (restore false ls1 a1) = true /\
                hasUser (restore false ls1 a1) = profile /\
                auth_only (currentScreen (restore false ls1 a1)) = false).
    { unfold restore.
      assert (Ha1 : isLoggedIn a1 = true /\ hasUser a1 = profile)
        by (unfold a1; now destruct profile).
      destruct Ha1 as [Hl Hu].
      destruct (ls1 !! screen_key) as [sc|]; [| now auto].
      destruct (truthy sc) eqn:Ht; simpl; [| now auto].
      destruct (auth_only sc) eqn:Ha; simpl; [now auto|].
      destruct (ls1 !! tab_key) as [tb|]; [| now auto].
      destruct (truthy tb); simpl; now auto. }
    destruct H as (Hl & Hu & Ha). simpl. rewrite Hl, Hu, Ha.
    split; [reflexivity|]. split; [reflexivity|]. split; [reflexivity|].
    split; [reflexivity|]. discriminate.
  - cbn [fst snd].
    rewrite persist_logged_out, persist_logged_out by reflexivity.
    simpl. split; [reflexivity|]. split; [reflexivity|]. split; [reflexivity|].
    split; [reflexivity|]. intros _. split; reflexivity.
Qed.

End AuthEventsFacts.
